(** * UIS SDMX to DDF: a shallow embedding of [etl/script/uis.py]

    The script reads two SDMX 2.0 documents with [xmltodict], groups the
    observations of the data file by indicator and location, and projects
    the parsed structures into DDF tables with pandas.  This development
    embeds the script's functions over

    - [xval], the json-like values [xmltodict.parse] returns;
    - [result], Python's "value or raised exception";
    - [DataFrame], a pandas frame as labelled rows under column labels;
    - a store of frame objects, for the generator [extract_datapoints].  *)

From Stdlib Require Import String Ascii List Bool Arith Lia.
From Stdlib Require Import Permutation Sorted.
Import ListNotations.
Open Scope string_scope.
Open Scope list_scope.

Set Implicit Arguments.
Local Set Warnings "-register-all".

(** ** Exceptions and results *)

Inductive exn : Type :=
| KeyError
| IndexError
| TypeError
| AttributeError
| AssertionError
| ValueError.

(** [LookupError] is the base class of [KeyError] and [IndexError] only. *)
Definition is_lookup_error (e : exn) : bool :=
  match e with
  | KeyError | IndexError => true
  | _ => false
  end.

Inductive result (A : Type) : Type :=
| Ok (a : A)
| Raise (e : exn).

Arguments Ok {A} a.
Arguments Raise {A} e.

Definition bind {A B : Type} (r : result A) (f : A -> result B) : result B :=
  match r with
  | Ok a => f a
  | Raise e => Raise e
  end.

Notation "x <- r ;; k" := (bind r (fun x => k))
  (at level 61, r at next level, right associativity).

(** A [for] loop that builds a list: the first exception ends it. *)
Fixpoint mapM {A B : Type} (f : A -> result B) (l : list A) : result (list B) :=
  match l with
  | [] => Ok []
  | a :: l' => b <- f a ;; bs <- mapM f l' ;; Ok (b :: bs)
  end.

(** A [for] loop that updates a local: the first exception ends it. *)
Fixpoint foldM {A S : Type} (f : S -> A -> result S) (s : S) (l : list A)
  : result S :=
  match l with
  | [] => Ok s
  | a :: l' => s' <- f s a ;; foldM f s' l'
  end.

(** ** Insertion-ordered dicts with string keys *)

Definition dict (V : Type) : Type := list (string * V).

Fixpoint dict_get {V : Type} (d : dict V) (k : string) : option V :=
  match d with
  | [] => None
  | (k', v) :: d' => if String.eqb k' k then Some v else dict_get d' k
  end.

Definition dict_mem {V : Type} (d : dict V) (k : string) : bool :=
  match dict_get d k with
  | Some _ => true
  | None => false
  end.

(** [d[k] = v]: an existing key keeps its position, a new one goes last. *)
Fixpoint dict_set {V : Type} (d : dict V) (k : string) (v : V) : dict V :=
  match d with
  | [] => [(k, v)]
  | (k', v') :: d' =>
      if String.eqb k' k then (k', v) :: d' else (k', v') :: dict_set d' k v
  end.

Definition dict_keys {V : Type} (d : dict V) : list string := map fst d.

(** ** Values returned by xmltodict

    An element with attributes or children is a mapping (attribute keys
    start with [@], the text is under [#text]); an element with text only
    is a string; an empty element is [None]; siblings of one name, when
    there are two or more, are a list, and a lone child is the child
    itself. *)

Inductive xval : Type :=
| XNone
| XStr (s : string)
| XDict (items : list (string * xval))
| XList (elems : list xval).

(** [x[k]] for a string key. *)
Definition getitem (x : xval) (k : string) : result xval :=
  match x with
  | XDict items =>
      match dict_get items k with
      | Some v => Ok v
      | None => Raise KeyError
      end
  | XNone | XStr _ | XList _ => Raise TypeError
  end.

(** [x[n]] for an integer index that is not negative.  A mapping from
    xmltodict has string keys only, so an integer is never one of them. *)
Definition getitem_int (x : xval) (n : nat) : result xval :=
  match x with
  | XList elems =>
      match nth_error elems n with
      | Some v => Ok v
      | None => Raise IndexError
      end
  | XStr s =>
      match String.get n s with
      | Some c => Ok (XStr (String c EmptyString))
      | None => Raise IndexError
      end
  | XDict _ => Raise KeyError
  | XNone => Raise TypeError
  end.

Fixpoint chars (s : string) : list xval :=
  match s with
  | EmptyString => []
  | String c s' => XStr (String c EmptyString) :: chars s'
  end.

(** [for i in x]: a list gives its elements, a mapping its keys, a string
    its characters. *)
Definition iter (x : xval) : result (list xval) :=
  match x with
  | XList elems => Ok elems
  | XDict items => Ok (map (fun kv => XStr (fst kv)) items)
  | XStr s => Ok (chars s)
  | XNone => Raise TypeError
  end.

(** [x.keys()] *)
Definition keys (x : xval) : result (list string) :=
  match x with
  | XDict items => Ok (dict_keys items)
  | XNone | XStr _ | XList _ => Raise AttributeError
  end.

(** [x == s] for a string literal [s]. *)
Definition eq_str (x : xval) (s : string) : bool :=
  match x with
  | XStr s' => String.eqb s' s
  | _ => false
  end.

Definition isinstance_list (x : xval) : bool :=
  match x with XList _ => true | _ => false end.

Definition isinstance_dict (x : xval) : bool :=
  match x with XDict _ => true | _ => false end.

(** How xmltodict stores the children of one name. *)
Definition children (xs : list xval) : xval :=
  match xs with
  | [x] => x
  | _ => XList xs
  end.

(** ** The identifier canonicalization of ddf_utils *)

Module DdfUtils.

Definition is_digit (c : ascii) : bool :=
  Nat.leb 48 (nat_of_ascii c) && Nat.leb (nat_of_ascii c) 57.

Definition is_upper (c : ascii) : bool :=
  Nat.leb 65 (nat_of_ascii c) && Nat.leb (nat_of_ascii c) 90.

Definition is_lower (c : ascii) : bool :=
  Nat.leb 97 (nat_of_ascii c) && Nat.leb (nat_of_ascii c) 122.

Definition is_alnum (c : ascii) : bool :=
  is_digit c || is_upper c || is_lower c.

Definition lower (c : ascii) : ascii :=
  if is_upper c then ascii_of_nat (nat_of_ascii c + 32) else c.

Definition sep : ascii := "_"%char.

(** Every maximal run of characters that are not alphanumeric becomes one
    separator; letters are lowercased. *)
Fixpoint collapse (cs : list ascii) : list ascii :=
  match cs with
  | [] => []
  | c :: rest =>
      if is_alnum c then lower c :: collapse rest
      else match rest with
           | [] => [sep]
           | c' :: _ => if is_alnum c' then sep :: collapse rest
                        else collapse rest
           end
  end.

(** Modelled from the spec: [to_concept_id] is imported from
    [ddf_utils.str] and is not among the sources.  The spec describes it
    as "free-text -> canonical lowercase concept id, stable and
    deterministic" and the canonical form as "lowercase, non-alphanumeric
    collapsed".  The spec does not name the separator a run collapses to;
    it is [_] here. *)
Definition to_concept_id (s : string) : string :=
  string_of_list_ascii (collapse (list_ascii_of_string s)).

(** A canonical id: lowercase letters, digits and single separators. *)
Definition canonical_char (c : ascii) : bool :=
  is_digit c || is_lower c || Ascii.eqb c sep.

Fixpoint canonical (cs : list ascii) : bool :=
  match cs with
  | [] => true
  | c :: rest =>
      canonical_char c
      && match rest with
         | c' :: _ => is_alnum c || is_alnum c'
         | [] => true
         end
      && canonical rest
  end.

End DdfUtils.

(** ** pandas frames

    A cell holds a Python object: a parsed value or the float [nan]. *)

Inductive cell : Type :=
| CNaN
| CObj (x : xval).

Definition CText (s : string) : cell := CObj (XStr s).

(** [pd.isna]: [None] and [nan] are missing. *)
Definition isna (c : cell) : bool :=
  match c with
  | CNaN | CObj XNone => true
  | CObj _ => false
  end.

(** [c != s] for a string literal [s]. *)
Definition ne_str (c : cell) (s : string) : bool :=
  match c with
  | CObj x => negb (eq_str x s)
  | CNaN => true
  end.

(** A frame: the name of its index, its column labels, and its rows, each
    under its index label.  [L] is [nat] for the default [RangeIndex] and
    [cell] after [set_index]. *)
Record DataFrame (L : Type) : Type := mkDataFrame {
  index_name : option string;
  columns : list string;
  rows : list (L * list cell)
}.

Definition number {A : Type} (l : list A) : list (nat * A) :=
  combine (seq 0 (length l)) l.

(** [pd.DataFrame(data, columns=cols)], every row of [data] as wide as
    [cols]. *)
Definition pd_DataFrame (data : list (list cell)) (cols : list string)
  : DataFrame nat :=
  mkDataFrame None cols (number data).

Fixpoint col_index (cols : list string) (c : string) : option nat :=
  match cols with
  | [] => None
  | c' :: cols' =>
      if String.eqb c' c then Some 0
      else option_map S (col_index cols' c)
  end.

Definition cell_at (r : list cell) (i : nat) : cell := nth i r CNaN.

Fixpoint replace_nth {A : Type} (i : nat) (v : A) (l : list A) : list A :=
  match l, i with
  | [], _ => []
  | _ :: l', 0 => v :: l'
  | a :: l', S i' => a :: replace_nth i' v l'
  end.

Fixpoint remove_nth {A : Type} (i : nat) (l : list A) : list A :=
  match l, i with
  | [], _ => []
  | _ :: l', 0 => l'
  | a :: l', S i' => a :: remove_nth i' l'
  end.

Definition map_rows {L L' : Type} (f : L * list cell -> L' * list cell)
  (df : DataFrame L) (idx : option string) (cols : list string)
  : DataFrame L' :=
  mkDataFrame idx cols (map f (rows df)).

(** [df[c] = v] for a scalar [v]: an existing column is overwritten, a new
    one is added last. *)
Definition setitem_scalar {L : Type} (df : DataFrame L) (c : string) (v : cell)
  : DataFrame L :=
  match col_index (columns df) c with
  | Some i =>
      map_rows (fun r => (fst r, replace_nth i v (snd r)))
        df (index_name df) (columns df)
  | None =>
      map_rows (fun r => (fst r, snd r ++ [v]))
        df (index_name df) (columns df ++ [c])
  end.

(** [df[c]], the cells of one column. *)
Definition getcol {L : Type} (df : DataFrame L) (c : string)
  : result (list cell) :=
  match col_index (columns df) c with
  | Some i => Ok (map (fun r => cell_at (snd r) i) (rows df))
  | None => Raise KeyError
  end.

(** [df[c] = df[c].map(f)] *)
Definition map_column {L : Type} (f : cell -> result cell) (df : DataFrame L)
  (c : string) : result (DataFrame L) :=
  match col_index (columns df) c with
  | Some i =>
      rs <- mapM (fun r => v <- f (cell_at (snd r) i) ;;
                           Ok (fst r, replace_nth i v (snd r))) (rows df) ;;
      Ok (mkDataFrame (index_name df) (columns df) rs)
  | None => Raise KeyError
  end.

(** [pd.concat(frames, ignore_index=True)] for frames under the same
    columns. *)
Definition pd_concat (frames : list (DataFrame nat)) : result (DataFrame nat) :=
  match frames with
  | [] => Raise ValueError
  | f :: _ =>
      Ok (mkDataFrame None (columns f)
            (number (flat_map (fun g => map snd (rows g)) frames)))
  end.

(** [df.set_index(c)] *)
Definition set_index {L : Type} (df : DataFrame L) (c : string)
  : result (DataFrame cell) :=
  match col_index (columns df) c with
  | Some i =>
      Ok (map_rows (fun r => (cell_at (snd r) i, remove_nth i (snd r)))
            df (Some c) (remove_nth i (columns df)))
  | None => Raise KeyError
  end.

Definition label_is (l : string) (r : cell * list cell) : bool :=
  match fst r with
  | CObj x => eq_str x l
  | CNaN => false
  end.

(** [df.loc[labels]] for a list of labels: for each label in turn every
    row under it; a label that is under no row is a [KeyError]. *)
Definition loc (df : DataFrame cell) (labels : list string)
  : result (DataFrame cell) :=
  rss <- mapM (fun l => match filter (label_is l) (rows df) with
                        | [] => Raise KeyError
                        | rs => Ok rs
                        end) labels ;;
  Ok (mkDataFrame (index_name df) (columns df) (List.concat rss)).

(** [df[cols]] for a list of column labels. *)
Definition select {L : Type} (df : DataFrame L) (cols : list string)
  : result (DataFrame L) :=
  idxs <- mapM (fun c => match col_index (columns df) c with
                         | Some i => Ok i
                         | None => Raise KeyError
                         end) cols ;;
  Ok (map_rows (fun r => (fst r, map (cell_at (snd r)) idxs))
        df (index_name df) cols).

(** [df.reset_index()]: the index becomes the first column. *)
Definition reset_index (df : DataFrame cell) : result (DataFrame nat) :=
  let name := match index_name df with Some n => n | None => "index" end in
  if existsb (String.eqb name) (columns df) then Raise ValueError
  else Ok (mkDataFrame None (name :: columns df)
             (number (map (fun r => fst r :: snd r) (rows df)))).

(** [df.dropna(how='any')] *)
Definition dropna {L : Type} (df : DataFrame L) : DataFrame L :=
  mkDataFrame (index_name df) (columns df)
    (filter (fun r => forallb (fun c => negb (isna c)) (snd r)) (rows df)).

(** [df[mask]] for a boolean mask over the rows of [df]. *)
Definition getitem_mask {L : Type} (df : DataFrame L) (mask : list bool)
  : DataFrame L :=
  mkDataFrame (index_name df) (columns df)
    (map fst (filter snd (combine (rows df) mask))).

(** *** Sorting

    Sort keys are text; a missing key sorts last; any other object in a
    sort column cannot be ordered. *)

Definition sort_key (c : cell) : result (option string) :=
  match c with
  | CNaN | CObj XNone => Ok None
  | CObj (XStr s) => Ok (Some s)
  | CObj (XDict _) | CObj (XList _) => Raise TypeError
  end.

Definition key_compare (a b : option string) : comparison :=
  match a, b with
  | Some s, Some t => String.compare s t
  | Some _, None => Lt
  | None, Some _ => Gt
  | None, None => Eq
  end.

Fixpoint keys_compare (a b : list (option string)) : comparison :=
  match a, b with
  | [], [] => Eq
  | [], _ :: _ => Lt
  | _ :: _, [] => Gt
  | x :: a', y :: b' =>
      match key_compare x y with
      | Eq => keys_compare a' b'
      | c => c
      end
  end.

Definition keys_leb (a b : list (option string)) : bool :=
  match keys_compare a b with
  | Gt => false
  | _ => true
  end.

Section InsertionSort.

Variables (A K : Type) (leb : K -> K -> bool).

Fixpoint insert (x : K * A) (l : list (K * A)) : list (K * A) :=
  match l with
  | [] => [x]
  | y :: l' => if leb (fst x) (fst y) then x :: l else y :: insert x l'
  end.

(** A stable sort: among equal keys the earlier row stays first. *)
Fixpoint isort (l : list (K * A)) : list (K * A) :=
  match l with
  | [] => []
  | x :: l' => insert x (isort l')
  end.

End InsertionSort.

(** [df.sort_values(by=cols)] *)
Definition sort_values {L : Type} (df : DataFrame L) (by_ : list string)
  : result (DataFrame L) :=
  idxs <- mapM (fun c => match col_index (columns df) c with
                         | Some i => Ok i
                         | None => Raise KeyError
                         end) by_ ;;
  keyed <- mapM (fun r => ks <- mapM (fun i => sort_key (cell_at (snd r) i)) idxs ;;
                          Ok (ks, r)) (rows df) ;;
  Ok (mkDataFrame (index_name df) (columns df)
        (map snd (isort keys_leb keyed))).

(** [df.sort_index()] *)
Definition sort_index (df : DataFrame cell) : result (DataFrame cell) :=
  keyed <- mapM (fun r => k <- sort_key (fst r) ;; Ok ([k], r)) (rows df) ;;
  Ok (mkDataFrame (index_name df) (columns df)
        (map snd (isort keys_leb keyed))).

(** ** The store of frame objects

    A frame is a Python object: a name holds a reference to it, and two
    names may hold the same one.  An assignment to a column changes the
    object in place; frame methods called without [inplace] return a new
    object. *)

Definition ref : Type := nat.
Definition store : Type := list (DataFrame nat).

Definition M (A : Type) : Type := store -> result A * store.

Definition ret {A : Type} (a : A) : M A := fun h => (Ok a, h).

Definition lift {A : Type} (r : result A) : M A := fun h => (r, h).

Definition bindM {A B : Type} (m : M A) (f : A -> M B) : M B :=
  fun h =>
    match m h with
    | (Ok a, h') => f a h'
    | (Raise e, h') => (Raise e, h')
    end.

Notation "x <~ m ;; k" := (bindM m (fun x => k))
  (at level 61, m at next level, right associativity).

(** Reading through a reference.  No program holds a reference to an
    object that was never made; the store answers [ValueError] there. *)
Definition load (r : ref) : M (DataFrame nat) :=
  fun h =>
    match nth_error h r with
    | Some df => (Ok df, h)
    | None => (Raise ValueError, h)
    end.

Definition alloc (df : DataFrame nat) : M ref :=
  fun h => (Ok (length h), h ++ [df]).

(** Writing through a reference: the object is changed in place. *)
Definition modify (r : ref) (f : DataFrame nat -> DataFrame nat) : M unit :=
  fun h =>
    match nth_error h r with
    | Some df => (Ok tt, replace_nth r (f df) h)
    | None => (Raise ValueError, h)
    end.

(** A [for] loop over [l] in the store. *)
Fixpoint forM {A B : Type} (f : A -> M B) (l : list A) : M (list B) :=
  match l with
  | [] => ret []
  | a :: l' => b <~ f a ;; bs <~ forM f l' ;; ret (b :: bs)
  end.

(** A frame method that returns a new frame. *)
Definition method (r : ref) (f : DataFrame nat -> result (DataFrame nat))
  : M ref :=
  df <~ load r ;; df' <~ lift (f df) ;; alloc df'.

(** A generator: the suspended computations of its items, run one at a
    time as the consumer asks for the next item. *)
Definition generator (A : Type) : Type := list (M A).

(** [for x in g], to the end or to the first exception. *)
Fixpoint consume {A : Type} (g : generator A) : M (list A) :=
  match g with
  | [] => ret []
  | m :: g' => a <~ m ;; rest <~ consume g' ;; ret (a :: rest)
  end.

(** ** The script *)

Section Script.

(** [ddf_utils.str.to_concept_id], on text. *)
Variable to_concept_id : string -> string.

(** [to_concept_id(x)] for a parsed value: it works on text. *)
Definition to_concept_id_x (x : xval) : result string :=
  match x with
  | XStr s => Ok (to_concept_id s)
  | XNone | XDict _ | XList _ => Raise AttributeError
  end.

(** [to_concept_id] under [Series.map]: [nan] is returned as it is. *)
Definition to_concept_id_cell (c : cell) : result cell :=
  match c with
  | CNaN => Ok CNaN
  | CObj x => s <- to_concept_id_x x ;; Ok (CText s)
  end.

Definition dict_getitem {V : Type} (d : dict V) (k : string) : result V :=
  match dict_get d k with
  | Some v => Ok v
  | None => Raise KeyError
  end.

(** *** [_read_data] *)

Definition series : Type := list (xval * xval).

(** Lines 60-68: the attributes of a series. *)
Definition series_attrs (item_dict : xval) : result (dict string) :=
  s <- getitem item_dict "Series" ;;
  sk <- getitem s "SeriesKey" ;;
  vs <- getitem sk "Value" ;;
  values <- iter vs ;;
  foldM (fun attrs i =>
           c <- getitem i "@concept" ;;
           attrs1 <- (if eq_str c "EDULIT_IND"
                      then v <- getitem i "@value" ;;
                           id <- to_concept_id_x v ;;
                           Ok (dict_set attrs "key" id)
                      else Ok attrs) ;;
           c' <- getitem i "@concept" ;;
           if eq_str c' "LOCATION"
           then v <- getitem i "@value" ;;
                id <- to_concept_id_x v ;;
                Ok (dict_set attrs1 "location" id)
           else Ok attrs1)
        [] values.

Definition obs_pair (o : xval) : result (xval * xval) :=
  t <- getitem o "Time" ;;
  ov <- getitem o "ObsValue" ;;
  v <- getitem ov "@value" ;;
  Ok (t, v).

(** Lines 70-76: the observations of a series. *)
Definition series_obs (item_dict : xval) : result series :=
  s <- getitem item_dict "Series" ;;
  obs <- getitem s "Obs" ;;
  if isinstance_list obs then
    s' <- getitem item_dict "Series" ;;
    os <- getitem s' "Obs" ;;
    os' <- iter os ;;
    mapM obs_pair os'
  else
    p <- obs_pair obs ;; Ok [p].

(** Lines 78-83: the series goes under its indicator and location. *)
Definition insert_series (all_data : dict (dict series)) (attrs : dict string)
  (ser : series) : result (dict (dict series)) :=
  key <- dict_getitem attrs "key" ;;
  if negb (dict_mem all_data key) then
    location <- dict_getitem attrs "location" ;;
    Ok (dict_set all_data key [(location, ser)])
  else
    location <- dict_getitem attrs "location" ;;
    by_location <- dict_getitem all_data key ;;
    if dict_mem by_location location then Raise AssertionError
    else Ok (dict_set all_data key (dict_set by_location location ser)).

(** The body of the loop of lines 53-83. *)
Definition read_series (all_data : dict (dict series)) (item_dict : xval)
  : result (dict (dict series)) :=
  attrs <- series_attrs item_dict ;;
  ser <- series_obs item_dict ;;
  insert_series all_data attrs ser.

(** Lines 89-91: the frame of one series, and its location column
    assigned in place. *)
Definition series_frame (k : string) (loc_ser : string * series) : M ref :=
  df <~ alloc (pd_DataFrame (map (fun tv => [CObj (fst tv); CObj (snd tv)])
                               (snd loc_ser)) ["time"; k]) ;;
  _ <~ modify df (fun d => setitem_scalar d "location" (CText (fst loc_ser))) ;;
  ret df.

(** Line 93: [pd.concat(to_concat, ignore_index=True)] *)
Definition concat_frames (to_concat : list ref) : M ref :=
  frames <~ forM load to_concat ;;
  df <~ lift (pd_concat frames) ;;
  alloc df.

(** [_read_data], from the parsed [Series] elements of the data file in
    document order: the mapping from each indicator to its table. *)
Definition _read_data (all_ser : list xval) : M (dict ref) :=
  all_data <~ lift (foldM read_series [] all_ser) ;;
  forM (fun kv => to_concat <~ forM (series_frame (fst kv)) (snd kv) ;;
                  df <~ concat_frames to_concat ;;
                  ret (fst kv, df)) all_data.

(** *** The extractors *)

(** [dsd['message:Structure']['message:CodeLists']['CodeList'][n]] *)
Definition code_list (dsd : xval) (n : nat) : result xval :=
  m <- getitem dsd "message:Structure" ;;
  cls <- getitem m "message:CodeLists" ;;
  cl <- getitem cls "CodeList" ;;
  getitem_int cl n.

(** Lines 104-117: the record of one indicator code. *)
Definition indi_info (i : xval) : result (list cell) :=
  value <- getitem i "@value" ;;
  ks <- keys i ;;
  parent <- (if existsb (String.eqb "@parentCode") ks
             then p <- getitem i "@parentCode" ;; Ok (CObj p)
             else Ok CNaN) ;;
  d <- getitem i "Description" ;;
  name <- (if isinstance_dict d
           then d' <- getitem i "Description" ;; getitem d' "#text"
           else d' <- getitem i "Description" ;;
                d0 <- getitem_int d' 0 ;; getitem d0 "#text") ;;
  Ok [CObj value; parent; CObj name].

(** Lines 99-128: the frame of the indicator codes under their canonical
    ids. *)
Definition concept_index (dsd : xval) : result (DataFrame cell) :=
  indicators <- code_list dsd 0 ;;
  codes <- getitem indicators "Code" ;;
  codes' <- iter codes ;;
  indi_info_list <- mapM indi_info codes' ;;
  let conc := pd_DataFrame indi_info_list ["concept"; "drillup"; "name"] in
  conc <- map_column to_concept_id_cell conc "concept" ;;
  conc <- map_column to_concept_id_cell conc "drillup" ;;
  let conc := setitem_scalar conc "concept_type" (CText "measure") in
  set_index conc "concept".

Definition extract_concepts_continuous {V : Type} (data : dict V) (dsd : xval)
  : result (DataFrame nat) :=
  conc <- concept_index dsd ;;
  conc <- loc conc (dict_keys data) ;;
  conc <- sort_index conc ;;
  conc <- select conc ["name"; "concept_type"] ;;
  reset_index conc.

Definition extract_concepts_discrete : DataFrame nat :=
  pd_DataFrame [[CText "name"; CText "Name"; CText "string"];
                [CText "time"; CText "Year"; CText "time"];
                [CText "location"; CText "Location"; CText "entity_domain"]]
    ["concept"; "name"; "concept_type"].

(** Line 153: the record of one location code. *)
Definition cinfo (c : xval) : result (list cell) :=
  value <- getitem c "@value" ;;
  d <- getitem c "Description" ;;
  d0 <- getitem_int d 0 ;;
  name <- getitem d0 "#text" ;;
  Ok [CObj value; CObj name].

Definition extract_entities_location (dsd : xval) : result (DataFrame nat) :=
  locs <- code_list dsd 1 ;;
  codes <- getitem locs "Code" ;;
  codes' <- iter codes ;;
  loc_list <- mapM cinfo codes' ;;
  let loc_df := pd_DataFrame loc_list ["location"; "name"] in
  map_column to_concept_id_cell loc_df "location".

(** Lines 165-168: the frame yielded for the indicator [k], each method
    returning a new frame. *)
Definition datapoints (k : string) (df : ref) : M (string * ref) :=
  df1 <~ method df (fun d => Ok (dropna d)) ;;
  d1 <~ load df1 ;;
  col <~ lift (getcol d1 k) ;;
  df2 <~ method df1 (fun d =>
           Ok (getitem_mask d (map (fun c => ne_str c "NaN") col))) ;;
  df3 <~ method df2 (fun d => select d ["location"; "time"; k]) ;;
  df4 <~ method df3 (fun d => sort_values d ["location"; "time"]) ;;
  ret (k, df4).

Definition extract_datapoints (data : dict ref) : generator (string * ref) :=
  map (fun kv => datapoints (fst kv) (snd kv)) data.

End Script.

(** ** The run of the script (lines 173-201) *)

(** What [df.to_csv(path, index=False)] writes: the header and the rows,
    without the index. *)
Definition csv : Type := (list string * list (list cell))%type.

Definition to_csv {L : Type} (df : DataFrame L) : csv :=
  (columns df, map snd (rows df)).

Definition ends_with_slash (s : string) : bool :=
  match rev (list_ascii_of_string s) with
  | c :: _ => Ascii.eqb c "/"
  | [] => true
  end.

(** [os.path.join(a, b)] on POSIX. *)
Definition os_path_join (a b : string) : string :=
  if String.prefix "/" b then b
  else if ends_with_slash a then a ++ b
  else a ++ "/" ++ b.

Definition out_dir : string := "../../".

(** ['ddf--datapoints--{}--by--location--time.csv'.format(k)] *)
Definition datapoints_file (k : string) : string :=
  "ddf--datapoints--" ++ k ++ "--by--location--time.csv".

(** The files written, in the order of the writes. *)
Definition files : Type := list (string * csv).

(** Lines 193-196: each table is written as the generator yields it. *)
Fixpoint write_datapoints (g : generator (string * ref)) (h : store)
  (written : files) : files * result unit :=
  match g with
  | [] => (written, Ok tt)
  | m :: g' =>
      match m h with
      | (Raise e, _) => (written, Raise e)
      | (Ok (k, r), h') =>
          match nth_error h' r with
          | Some df =>
              write_datapoints g' h'
                (written ++ [(os_path_join out_dir (datapoints_file k),
                              to_csv df)])
          | None => (written, Raise ValueError)
          end
      end
  end.

Section Main.

Variable to_concept_id : string -> string.

(** [ddf_utils.index.create_index_file], on the files of the output
    directory. *)
Variable create_index_file : files -> files.

(** The script, from the parsed DSD and the parsed [Series] elements of
    the data file: the files written and how the run ends. *)
Definition main (dsd : xval) (all_ser : list xval) : files * result unit :=
  match _read_data to_concept_id all_ser [] with
  | (Raise e, _) => ([], Raise e)
  | (Ok data, h) =>
      match extract_concepts_continuous to_concept_id data dsd with
      | Raise e => ([], Raise e)
      | Ok conc =>
          let written :=
            [(os_path_join out_dir "ddf--concepts--continuous.csv",
              to_csv conc);
             (os_path_join out_dir "ddf--concepts--discrete.csv",
              to_csv extract_concepts_discrete)] in
          match extract_entities_location to_concept_id dsd with
          | Raise e => (written, Raise e)
          | Ok location =>
              let written :=
                written
                ++ [(os_path_join out_dir "ddf--entities--location.csv",
                     to_csv location)] in
              match write_datapoints (extract_datapoints data) h written with
              | (written, Ok _) => (create_index_file written, Ok tt)
              | (written, Raise e) => (written, Raise e)
              end
          end
      end
  end.

End Main.

(** ** Shapes of parsed documents, for the statements below *)

(** The observation [o] carries the time [fst tv] and the value [snd tv]. *)
Definition has_obs (o : xval) (tv : xval * xval) : Prop :=
  getitem o "Time" = Ok (fst tv)
  /\ exists ov, getitem o "ObsValue" = Ok ov
                /\ getitem ov "@value" = Ok (snd tv).

(** The series element [item] is read as the series of the canonical
    indicator [k] and location [l]. *)
Definition series_is (to_concept_id : string -> string) (item : xval)
  (k l : string) : Prop :=
  exists attrs ser,
    series_attrs to_concept_id item = Ok attrs
    /\ series_obs item = Ok ser
    /\ dict_get attrs "key" = Some k
    /\ dict_get attrs "location" = Some l.

Definition readable (to_concept_id : string -> string) (item : xval) : Prop :=
  exists k l, series_is to_concept_id item k l.

(** A series is stored under the indicator [k] and the location [l]. *)
Definition has_pair (all_data : dict (dict series)) (k l : string) : Prop :=
  exists by_location,
    dict_get all_data k = Some by_location
    /\ dict_mem by_location l = true.

(** The series key of [item] has one [Value] child: a mapping. *)
Definition single_key_value (item : xval) (items : list (string * xval))
  : Prop :=
  exists s sk,
    getitem item "Series" = Ok s
    /\ getitem s "SeriesKey" = Ok sk
    /\ getitem sk "Value" = Ok (XDict items).

(** A code that is a mapping whose [Description], when there is one, is a
    mapping or a list of mappings. *)
Definition mapping_shaped (c : xval) : bool :=
  match c with
  | XDict items =>
      match dict_get items "Description" with
      | Some (XDict _) => true
      | Some (XList ds) => forallb isinstance_dict ds
      | Some _ => false
      | None => true
      end
  | _ => false
  end.

(** A code with one [Description] child: a mapping. *)
Definition single_description (c : xval) : bool :=
  match c with
  | XDict items =>
      match dict_get items "Description" with
      | Some (XDict _) => true
      | _ => false
      end
  | _ => false
  end.

(** A location code with several [Description] children, the first of
    which carries the text [snd r], and with the value [fst r]. *)
Definition location_code (c : xval) (r : string * xval) : Prop :=
  getitem c "@value" = Ok (XStr (fst r))
  /\ exists ds d0,
       getitem c "Description" = Ok (XList ds)
       /\ nth_error ds 0 = Some d0
       /\ getitem d0 "#text" = Ok (snd r).

(** An indicator of the DSD: its code, its parent code if it has one, and
    its name. *)
Record concept : Type := mkConcept {
  concept_code : string;
  concept_parent : option string;
  concept_name : xval
}.

(** The text of a [Description]: of the mapping, or of the first one of
    several. *)
Definition description_text (d name : xval) : Prop :=
  if isinstance_dict d then getitem d "#text" = Ok name
  else exists d0, getitem_int d 0 = Ok d0 /\ getitem d0 "#text" = Ok name.

Definition indicator_code (c : xval) (r : concept) : Prop :=
  exists items d,
    c = XDict items
    /\ dict_get items "@value" = Some (XStr (concept_code r))
    /\ dict_get items "@parentCode" = option_map XStr (concept_parent r)
    /\ dict_get items "Description" = Some d
    /\ description_text d (concept_name r).

Definition concept_id (to_concept_id : string -> string) (r : concept)
  : string :=
  to_concept_id (concept_code r).

(** The row of an indicator in the continuous-concepts table. *)
Definition concept_row (to_concept_id : string -> string) (r : concept)
  : list cell :=
  [CText (concept_id to_concept_id r); CObj (concept_name r); CText "measure"].

(** The row of an indicator under its canonical id, as [set_index] leaves
    it: the canonical parent, the name and the concept type. *)
Definition index_row (to_concept_id : string -> string) (r : concept)
  : cell * list cell :=
  (CText (concept_id to_concept_id r),
   [match concept_parent r with
    | Some p => CText (to_concept_id p)
    | None => CNaN
    end;
    CObj (concept_name r);
    CText "measure"]).

(** ** Indicator tables, for the statements on [extract_datapoints] *)

(** A cell that can be a sort key: text, or missing. *)
Definition sortable (c : cell) : bool :=
  match c with
  | CObj (XDict _) | CObj (XList _) => false
  | _ => true
  end.

Fixpoint distinct (l : list string) : bool :=
  match l with
  | [] => true
  | a :: l' => negb (existsb (String.eqb a) l') && distinct l'
  end.

(** The table of the indicator [k] as the reader builds it: distinct
    column labels, among them [location], [time] and [k], which is neither
    of the two; rows as wide as the columns; text or nothing in the
    location and time cells.  (pandas treats a repeated label differently
    from a single one; the frames here have none.) *)
Definition indicator_table (k : string) (df : DataFrame nat) : bool :=
  match col_index (columns df) "location", col_index (columns df) "time",
        col_index (columns df) k with
  | Some il, Some it, Some _ =>
      distinct (columns df)
      && negb (String.eqb k "location") && negb (String.eqb k "time")
      && forallb (fun r =>
                    Nat.eqb (length (snd r)) (length (columns df))
                    && sortable (cell_at (snd r) il)
                    && sortable (cell_at (snd r) it)) (rows df)
  | _, _, _ => false
  end.

Definition column_cell (df : DataFrame nat) (c : string) (r : nat * list cell)
  : cell :=
  match col_index (columns df) c with
  | Some i => cell_at (snd r) i
  | None => CNaN
  end.

(** A row is kept when none of its values is missing and its value for the
    indicator is not the text ["NaN"]. *)
Definition kept (k : string) (df : DataFrame nat) (r : nat * list cell)
  : bool :=
  forallb (fun c => negb (isna c)) (snd r)
  && ne_str (column_cell df k r) "NaN".

(** The row under the columns (location, time, k). *)
Definition datapoint (k : string) (df : DataFrame nat) (r : nat * list cell)
  : nat * list cell :=
  (fst r, [column_cell df "location" r; column_cell df "time" r;
           column_cell df k r]).

Definition cell_text (c : cell) : option string :=
  match c with
  | CObj (XStr s) => Some s
  | _ => None
  end.

(** Ascending by (location, time), on rows under (location, time, k). *)
Definition datapoint_le (r1 r2 : nat * list cell) : Prop :=
  exists l1 t1 l2 t2,
    cell_text (cell_at (snd r1) 0) = Some l1
    /\ cell_text (cell_at (snd r1) 1) = Some t1
    /\ cell_text (cell_at (snd r2) 0) = Some l2
    /\ cell_text (cell_at (snd r2) 1) = Some t2
    /\ (String.ltb l1 l2 = true \/ (l1 = l2 /\ String.leb t1 t2 = true)).

(** [df'] is the datapoints table of the indicator table [df]. *)
Definition datapoints_table (k : string) (df df' : DataFrame nat) : Prop :=
  columns df' = ["location"; "time"; k]
  /\ Permutation (rows df') (map (datapoint k df) (filter (kept k df) (rows df)))
  /\ Sorted datapoint_le (rows df')
  /\ (filter (kept k df) (rows df) = [] -> rows df' = []).

(** The computation leaves the frames of the store as they are and only
    adds new ones. *)
Definition extends {A : Type} (m : M A) : Prop :=
  forall h, exists t, snd (m h) = h ++ t.

(** The first cells of the rows of a returned table. *)
Definition first_cells (r : result (DataFrame nat)) : list cell :=
  match r with
  | Ok df => map (fun r => cell_at (snd r) 0) (rows df)
  | Raise _ => []
  end.

(** ** Further shapes, for the statements on the whole run *)

(** The key value [v] has the concept [fst cv] and the value [snd cv]. *)
Definition key_value_of (v : xval) (cv : string * string) : Prop :=
  getitem v "@concept" = Ok (XStr (fst cv))
  /\ getitem v "@value" = Ok (XStr (snd cv)).

(** The value of the last key value with the concept [c]. *)
Definition last_value (c : string) (cvs : list (string * string))
  : option string :=
  fold_left (fun acc cv => if String.eqb (fst cv) c then Some (snd cv) else acc)
    cvs None.

(** What the reader takes from a series: its canonical indicator and
    location, and its observations. *)
Record reading : Type := mkReading {
  r_key : string;
  r_location : string;
  r_series : series
}.

Definition reads (to_concept_id : string -> string) (item : xval) (t : reading)
  : Prop :=
  exists attrs,
    series_attrs to_concept_id item = Ok attrs
    /\ series_obs item = Ok (r_series t)
    /\ dict_get attrs "key" = Some (r_key t)
    /\ dict_get attrs "location" = Some (r_location t).

Definition r_pair (t : reading) : string * string := (r_key t, r_location t).

(** The elements of a list in the order of their first occurrence. *)
Fixpoint firsts (seen l : list string) : list string :=
  match l with
  | [] => []
  | a :: l' =>
      if existsb (String.eqb a) seen then firsts seen l'
      else a :: firsts (a :: seen) l'
  end.

(** The readings of the indicator [k], in document order. *)
Definition of_key (k : string) (ts : list reading) : list reading :=
  filter (fun t => String.eqb (r_key t) k) ts.

(** The mapping of lines 53-83: the indicators in the order of their first
    series, each with its (location, series) pairs in document order. *)
Definition grouped (ts : list reading) : dict (dict series) :=
  map (fun k => (k, map (fun t => (r_location t, r_series t)) (of_key k ts)))
    (firsts [] (map r_key ts)).

(** The table of the indicator [k]: the observations of its series, one
    series after the other, each row with the location of its series. *)
Definition table_of (k : string) (ts : list reading) : DataFrame nat :=
  pd_DataFrame
    (flat_map (fun t => map (fun tv => [CObj (fst tv); CObj (snd tv);
                                        CText (r_location t)])
                          (r_series t))
       (of_key k ts))
    ["time"; k; "location"].

(** ** Sample documents, as xmltodict returns them *)

Module Sample.

Definition key_value (concept value : string) : xval :=
  XDict [("@concept", XStr concept); ("@value", XStr value)].

Definition obs (time value : string) : xval :=
  XDict [("Time", XStr time); ("ObsValue", XDict [("@value", XStr value)])].

Definition series_of (key_values observations : list xval) : xval :=
  XDict [("Series",
          XDict [("SeriesKey", XDict [("Value", children key_values)]);
                 ("Obs", children observations)])].

Definition series_elem (indicator location : string) (observations : list xval)
  : xval :=
  series_of [key_value "EDULIT_IND" indicator; key_value "LOCATION" location]
    observations.

Definition description (lang text : string) : xval :=
  XDict [("@xml:lang", XStr lang); ("#text", XStr text)].

Definition code (value : string) (descriptions : list xval) : xval :=
  XDict [("@value", XStr value); ("Description", children descriptions)].

Definition code_list_of (id : string) (codes : list xval) : xval :=
  XDict [("@id", XStr id); ("Code", children codes)].

Definition dsd_of (indicators locations : list xval) : xval :=
  XDict [("message:Structure",
          XDict [("message:CodeLists",
                  XDict [("CodeList",
                          children [code_list_of "CL_EDULIT_IND" indicators;
                                    code_list_of "CL_LOCATION" locations])])])].


(** A data file: two indicators, the first one at two locations. *)
Definition usa_edu1 : xval :=
  series_elem "EDU1" "USA" [obs "2000" "5.1"; obs "1999" "NaN"].
Definition fra_edu1 : xval := series_elem "EDU1" "FRA" [obs "2001" "3"].
Definition usa_edu2 : xval := series_elem "EDU2" "USA" [obs "2001" "7.5"].

(** The series of France again, under other spellings of the codes. *)
Definition fra_edu1_again : xval :=
  series_elem "edu1" "fra" [obs "2002" "4"].

(** A series whose key has the indicator only. *)
Definition one_key_value : xval :=
  series_of [key_value "EDULIT_IND" "EDU1"] [obs "2001" "3"].

Definition en_fr (en fr : string) : list xval :=
  [description "en" en; description "fr" fr].

Definition en (text : string) : list xval := [description "en" text].

(** A DSD: three indicators, one of them with a single description, and
    two locations with two descriptions each. *)
Definition indicators : list xval :=
  [code "EDU1" (en_fr "Enrolment" "Effectifs");
   code "EDU2" (en "Literacy rate");
   code "A.B" (en_fr "Teachers" "Enseignants")].

Definition indicator_concepts : list concept :=
  [mkConcept "EDU1" None (XStr "Enrolment");
   mkConcept "EDU2" None (XStr "Literacy rate");
   mkConcept "A.B" None (XStr "Teachers")].

Definition locations : list xval :=
  [code "USA" (en_fr "United States" "Etats-Unis");
   code "FRA" (en_fr "France" "France")].

Definition dsd : xval := dsd_of indicators locations.

(** The same DSD with one description per location. *)
Definition locations_en : list xval :=
  [code "USA" (en "United States"); code "FRA" (en "France")].

Definition dsd_en : xval := dsd_of indicators locations_en.

(** A DSD with a single location, of a single description. *)
Definition dsd_one_location : xval :=
  dsd_of indicators [code "USA" (en "United States")].

(** A DSD with two indicator codes of one canonical id. *)
Definition colliding : list xval :=
  [code "EDU1" (en_fr "Enrolment" "Effectifs");
   code "edu1" (en_fr "Enrolment, old series" "Effectifs")].

Definition dsd_colliding : xval := dsd_of colliding locations.

(** The store the reader leaves for the data file: the frame of each
    series, and after the frames of an indicator its table. *)
Definition usa_edu1_frame : DataFrame nat :=
  mkDataFrame None ["time"; "edu1"; "location"]
    [(0, [CText "2000"; CText "5.1"; CText "usa"]);
     (1, [CText "1999"; CText "NaN"; CText "usa"])].

Definition fra_edu1_frame : DataFrame nat :=
  mkDataFrame None ["time"; "edu1"; "location"]
    [(0, [CText "2001"; CText "3"; CText "fra"])].

Definition edu1_table : DataFrame nat :=
  mkDataFrame None ["time"; "edu1"; "location"]
    [(0, [CText "2000"; CText "5.1"; CText "usa"]);
     (1, [CText "1999"; CText "NaN"; CText "usa"]);
     (2, [CText "2001"; CText "3"; CText "fra"])].

Definition edu2_table : DataFrame nat :=
  mkDataFrame None ["time"; "edu2"; "location"]
    [(0, [CText "2001"; CText "7.5"; CText "usa"])].

Definition tables : store :=
  [usa_edu1_frame; fra_edu1_frame; edu1_table; edu2_table; edu2_table].

Definition data : dict ref := [("edu1", 2); ("edu2", 4)].

End Sample.

(** ** More sample documents *)

Module Cases.

Import Sample.

(** A DSD with a single indicator code. *)
Definition dsd_one_indicator : xval :=
  dsd_of [code "EDU1" (en_fr "Enrolment" "Effectifs")] locations.

(** A DSD with a single code list. *)
Definition dsd_one_list : xval :=
  XDict [("message:Structure",
          XDict [("message:CodeLists",
                  XDict [("CodeList",
                          code_list_of "CL_EDULIT_IND" indicators)])])].

(** A series with a third dimension in its key. *)
Definition usa_edu1_female : xval :=
  series_of [key_value "EDULIT_IND" "EDU1"; key_value "LOCATION" "USA";
             key_value "SEX" "F"]
    [obs "2000" "5.3"].

(** A series whose key has no indicator. *)
Definition no_indicator : xval :=
  series_of [key_value "LOCATION" "USA"; key_value "SEX" "F"]
    [obs "2000" "5.3"].

(** A series without observations. *)
Definition no_obs : xval :=
  XDict [("Series",
          XDict [("SeriesKey",
                  XDict [("Value",
                          XList [key_value "EDULIT_IND" "EDU1";
                                 key_value "LOCATION" "USA"])])])].

(** The data file of [Sample] and what the reader takes from it. *)
Definition data_file : list xval := [usa_edu1; fra_edu1; usa_edu2].

Definition readings : list reading :=
  [mkReading "edu1" "usa" [(XStr "2000", XStr "5.1"); (XStr "1999", XStr "NaN")];
   mkReading "edu1" "fra" [(XStr "2001", XStr "3")];
   mkReading "edu2" "usa" [(XStr "2001", XStr "7.5")]].

Definition location_records : list (string * xval) :=
  [("USA", XStr "United States"); ("FRA", XStr "France")].

Definition colliding_concepts : list concept :=
  [mkConcept "EDU1" None (XStr "Enrolment");
   mkConcept "edu1" None (XStr "Enrolment, old series")].

(** A store with a table that has no column for its indicator. *)
Definition no_value_table : DataFrame nat :=
  mkDataFrame None ["time"; "location"] [(0, [CText "2000"; CText "usa"])].

Definition tables_then_bad : store := tables ++ [no_value_table].

Definition data_then_bad : dict ref := [("edu1", 2); ("edu3", 5); ("edu2", 4)].

End Cases.

(** * Properties *)

Unset Implicit Arguments.

(** ** Canonicalization *)

Lemma lower_alnum (c : ascii) :
  DdfUtils.is_alnum c = true ->
  DdfUtils.canonical_char (DdfUtils.lower c) = true
  /\ DdfUtils.is_alnum (DdfUtils.lower c) = true.
Proof.
  destruct c as [[] [] [] [] [] [] [] []]; vm_compute; intros H;
    try discriminate H; split; reflexivity.
Qed.

Lemma canonical_alnum_lower (c : ascii) :
  DdfUtils.canonical_char c = true -> DdfUtils.is_alnum c = true ->
  DdfUtils.lower c = c.
Proof.
  destruct c as [[] [] [] [] [] [] [] []]; vm_compute; intros H1 H2;
    try discriminate H1; try discriminate H2; reflexivity.
Qed.

Lemma canonical_not_alnum (c : ascii) :
  DdfUtils.canonical_char c = true -> DdfUtils.is_alnum c = false ->
  c = DdfUtils.sep.
Proof.
  destruct c as [[] [] [] [] [] [] [] []]; vm_compute; intros H1 H2;
    try discriminate H1; try discriminate H2; reflexivity.
Qed.

Lemma sep_canonical :
  DdfUtils.canonical_char DdfUtils.sep = true
  /\ DdfUtils.is_alnum DdfUtils.sep = false.
Proof. split; reflexivity. Qed.

Lemma collapse_cons_alnum (c : ascii) (rest : list ascii) :
  DdfUtils.is_alnum c = true ->
  DdfUtils.collapse (c :: rest) = DdfUtils.lower c :: DdfUtils.collapse rest.
Proof. intros H; simpl; rewrite H; reflexivity. Qed.

Lemma collapse_canonical (cs : list ascii) :
  DdfUtils.canonical (DdfUtils.collapse cs) = true.
Proof.
  induction cs as [|c rest IH]; [reflexivity|].
  destruct (DdfUtils.is_alnum c) eqn:Hc.
  - rewrite (collapse_cons_alnum _ _ Hc).
    destruct (lower_alnum _ Hc) as [Hcan Hal].
    cbn [DdfUtils.canonical]. rewrite Hcan, Hal, IH.
    destruct (DdfUtils.collapse rest); reflexivity.
  - destruct rest as [|c' rest'].
    + simpl; rewrite Hc; reflexivity.
    + change (DdfUtils.collapse (c :: c' :: rest'))
        with (if DdfUtils.is_alnum c then
                DdfUtils.lower c :: DdfUtils.collapse (c' :: rest')
              else if DdfUtils.is_alnum c' then
                DdfUtils.sep :: DdfUtils.collapse (c' :: rest')
              else DdfUtils.collapse (c' :: rest')).
      rewrite Hc. destruct (DdfUtils.is_alnum c') eqn:Hc'; [|exact IH].
      rewrite (collapse_cons_alnum _ _ Hc') in *.
      destruct (lower_alnum _ Hc') as [_ Hal].
      cbn [DdfUtils.canonical] in *. rewrite Hal in *.
      rewrite orb_true_r. simpl in *. exact IH.
Qed.

Lemma canonical_collapse (cs : list ascii) :
  DdfUtils.canonical cs = true -> DdfUtils.collapse cs = cs.
Proof.
  induction cs as [|c rest IH]; [reflexivity|].
  cbn [DdfUtils.canonical]. intros H.
  apply andb_true_iff in H as [H Hrest].
  apply andb_true_iff in H as [Hc Hadj].
  specialize (IH Hrest).
  destruct (DdfUtils.is_alnum c) eqn:Hal.
  - rewrite (collapse_cons_alnum _ _ Hal), IH.
    rewrite (canonical_alnum_lower _ Hc Hal). reflexivity.
  - rewrite (canonical_not_alnum _ Hc Hal) in *.
    destruct rest as [|c' rest'].
    + reflexivity.
    + simpl in Hadj.
      change (DdfUtils.collapse (DdfUtils.sep :: c' :: rest'))
        with (if DdfUtils.is_alnum c' then
                DdfUtils.sep :: DdfUtils.collapse (c' :: rest')
              else DdfUtils.collapse (c' :: rest')).
      rewrite Hadj, IH. reflexivity.
Qed.

(** C7: canonicalization is idempotent, and what it returns is a canonical
    lowercase id (digits, lowercase letters and single separators).  Being
    a function, it returns the same id at every call. *)
Theorem to_concept_id_idempotent (x : string) :
  DdfUtils.to_concept_id (DdfUtils.to_concept_id x) = DdfUtils.to_concept_id x
  /\ DdfUtils.canonical
       (list_ascii_of_string (DdfUtils.to_concept_id x)) = true.
Proof.
  unfold DdfUtils.to_concept_id.
  rewrite list_ascii_of_string_of_list_ascii.
  split; [|apply collapse_canonical].
  rewrite canonical_collapse; [reflexivity | apply collapse_canonical].
Qed.

(** ** The data reader *)

Lemma mapM_obs_pair (os : list xval) (tvs : series) :
  Forall2 has_obs os tvs -> mapM obs_pair os = Ok tvs.
Proof.
  induction 1 as [|o tv os tvs [Ht [ov [Hov Hv]]] _ IH]; [reflexivity|].
  cbn [mapM]. unfold obs_pair at 1. rewrite Ht, Hov. cbn [bind].
  rewrite Hv. cbn [bind]. rewrite IH. cbn [bind].
  destruct tv; reflexivity.
Qed.

(** The branch of lines 72-76 on either shape of the [Obs] children. *)
Lemma obs_normalized (os : list xval) (tvs : series) :
  Forall2 has_obs os tvs ->
  (if isinstance_list (children os)
   then os' <- iter (children os) ;; mapM obs_pair os'
   else p <- obs_pair (children os) ;; Ok [p])
  = Ok tvs.
Proof.
  intros Hall. pose proof (mapM_obs_pair _ _ Hall) as Hm.
  destruct os as [|o [|o' os']].
  - exact Hm.
  - inversion Hall as [|? tv ? ? Ho Hnil]; subst. inversion Hnil; subst.
    destruct Ho as [Ht _].
    destruct o; cbn in Ht; try discriminate Ht.
    cbn [children isinstance_list]. cbn [mapM] in Hm.
    destruct (obs_pair (XDict items)); cbn [bind] in *; congruence.
  - exact Hm.
Qed.

(** C5: a series with one [Obs] child (a mapping) and a series with
    several (a list) are read alike, as the (time, value) pairs of the
    observations in document order. *)
Theorem series_obs_both_shapes (item s : xval) (os : list xval)
  (tvs : series) :
  getitem item "Series" = Ok s ->
  getitem s "Obs" = Ok (children os) ->
  Forall2 has_obs os tvs ->
  series_obs item = Ok tvs.
Proof.
  intros Hs Hobs Hall. unfold series_obs.
  rewrite !Hs. cbn [bind]. rewrite !Hobs. cbn [bind].
  apply obs_normalized. exact Hall.
Qed.

Lemma dict_get_set {V : Type} (d : dict V) (k k' : string) (v : V) :
  dict_get (dict_set d k v) k'
  = if String.eqb k k' then Some v else dict_get d k'.
Proof.
  induction d as [|[k0 v0] d IH]; simpl.
  - reflexivity.
  - destruct (String.eqb k0 k) eqn:E; simpl.
    + apply String.eqb_eq in E; subst k0.
      destruct (String.eqb k k'); reflexivity.
    + rewrite IH. destruct (String.eqb k0 k') eqn:E'; [|reflexivity].
      apply String.eqb_eq in E'; subst k0.
      rewrite String.eqb_sym, E. reflexivity.
Qed.

Lemma dict_mem_set {V : Type} (d : dict V) (k k' : string) (v : V) :
  dict_mem (dict_set d k v) k' = String.eqb k k' || dict_mem d k'.
Proof.
  unfold dict_mem. rewrite dict_get_set.
  destruct (String.eqb k k'); reflexivity.
Qed.

Lemma foldM_app {A S : Type} (f : S -> A -> result S) (l1 l2 : list A) (s : S) :
  foldM f s (l1 ++ l2) = (s' <- foldM f s l1 ;; foldM f s' l2).
Proof.
  revert s; induction l1 as [|a l1 IH]; intros s; simpl; [reflexivity|].
  destruct (f s a); simpl; [apply IH | reflexivity].
Qed.

Section Reader.

Variable to_concept_id : string -> string.

Let read := read_series to_concept_id.

(** What the loop body does with a readable series: the assertion fails
    when its pair is stored already, and the series is stored otherwise,
    next to everything stored before. *)
Lemma read_series_cases (item : xval) (k l : string)
  (all_data : dict (dict series)) :
  series_is to_concept_id item k l ->
  (has_pair all_data k l /\ read all_data item = Raise AssertionError)
  \/ (exists all_data',
        read all_data item = Ok all_data'
        /\ has_pair all_data' k l
        /\ forall k' l', has_pair all_data k' l' -> has_pair all_data' k' l').
Proof.
  intros (attrs & ser & Hattrs & Hobs & Hkey & Hloc).
  unfold read, read_series. rewrite Hattrs, Hobs. cbn [bind].
  unfold insert_series, dict_getitem. rewrite Hkey, Hloc. cbn [bind].
  assert (Hm : dict_mem all_data k
               = match dict_get all_data k with Some _ => true | None => false end)
    by reflexivity.
  destruct (dict_get all_data k) as [by_location|] eqn:Hget;
    rewrite Hm; cbn [negb bind].
  - destruct (dict_mem by_location l) eqn:Hmem.
    + left. split; [|reflexivity]. exists by_location. auto.
    + right. eexists. split; [reflexivity|]. split.
      * eexists. rewrite dict_get_set, String.eqb_refl. split; [reflexivity|].
        rewrite dict_mem_set, String.eqb_refl. reflexivity.
      * intros k' l' (bl & Hk' & Hl'). unfold has_pair.
        rewrite dict_get_set. destruct (String.eqb k k') eqn:E.
        -- apply String.eqb_eq in E; subst k'.
           rewrite Hget in Hk'. injection Hk' as <-.
           eexists. split; [reflexivity|].
           rewrite dict_mem_set, Hl'. apply orb_true_r.
        -- exists bl. auto.
  - right. eexists. split; [reflexivity|]. split.
    + eexists. rewrite dict_get_set, String.eqb_refl. split; [reflexivity|].
      unfold dict_mem. simpl. rewrite String.eqb_refl. reflexivity.
    + intros k' l' (bl & Hk' & Hl'). unfold has_pair.
      rewrite dict_get_set. destruct (String.eqb k k') eqn:E.
      * apply String.eqb_eq in E; subst k'. congruence.
      * exists bl. auto.
Qed.

(** A series that is stored leaves every stored pair in place. *)
Lemma read_series_mono (item : xval) (all_data all_data' : dict (dict series)) :
  read all_data item = Ok all_data' ->
  forall k l, has_pair all_data k l -> has_pair all_data' k l.
Proof.
  unfold read, read_series. intros H.
  destruct (series_attrs to_concept_id item) as [attrs|]; [|discriminate H].
  destruct (series_obs item) as [ser|]; [|discriminate H].
  cbn [bind] in H. unfold insert_series, dict_getitem in H.
  destruct (dict_get attrs "key") as [key|]; [|discriminate H].
  cbn [bind] in H.
  assert (Hm : dict_mem all_data key
               = match dict_get all_data key with
                 | Some _ => true
                 | None => false
                 end) by reflexivity.
  destruct (dict_get attrs "location") as [location|];
    [|destruct (negb (dict_mem all_data key)); discriminate H].
  destruct (dict_get all_data key) as [by_location|] eqn:Hget;
    rewrite Hm in H; cbn [negb bind] in H.
  - destruct (dict_mem by_location location) eqn:Hmem; [discriminate H|].
    injection H as <-. intros k l (bl & Hk & Hl). unfold has_pair.
    rewrite dict_get_set. destruct (String.eqb key k) eqn:E.
    + apply String.eqb_eq in E; subst k.
      rewrite Hget in Hk. injection Hk as <-.
      eexists. split; [reflexivity|].
      rewrite dict_mem_set, Hl. apply orb_true_r.
    + exists bl. auto.
  - injection H as <-. intros k l (bl & Hk & Hl). unfold has_pair.
    rewrite dict_get_set. destruct (String.eqb key k) eqn:E.
    + apply String.eqb_eq in E; subst k. congruence.
    + exists bl. auto.
Qed.

Lemma fold_mono (items : list xval) :
  forall all_data all_data',
    foldM read all_data items = Ok all_data' ->
    forall k l, has_pair all_data k l -> has_pair all_data' k l.
Proof.
  induction items as [|item items IH]; intros d d' H k l Hin; cbn [foldM] in H.
  - injection H as <-. exact Hin.
  - destruct (read d item) as [d1|] eqn:Hr; [|discriminate H].
    cbn [bind] in H. apply (IH d1 d' H).
    apply (read_series_mono item d d1 Hr). exact Hin.
Qed.

(** C1: at most one series per (indicator, location) pair.  When a data
    file has a second series with the canonical indicator and location of
    an earlier one, the reader raises the assertion error at the second
    one: it is not stored and no table is returned.  (A series before the
    second one that cannot be read, or that is itself such a duplicate,
    ends the loop there with its own exception.) *)
Theorem duplicate_series_raises (pre mid post : list xval) (a b : xval)
  (k l : string) (h : store) :
  series_is to_concept_id a k l ->
  series_is to_concept_id b k l ->
  _read_data to_concept_id (pre ++ a :: mid ++ b :: post) h
  = (match foldM (read_series to_concept_id) [] (pre ++ a :: mid) with
     | Ok _ => Raise AssertionError
     | Raise e => Raise e
     end, h).
Proof.
  intros Ha Hb. unfold _read_data, bindM, lift. fold read.
  replace (pre ++ a :: mid ++ b :: post)
    with ((pre ++ a :: mid) ++ b :: post)
    by (rewrite <- app_assoc; reflexivity).
  rewrite (foldM_app read (pre ++ a :: mid) (b :: post)).
  destruct (foldM read [] (pre ++ a :: mid)) as [d|e] eqn:Hfold;
    cbn [bind]; [|reflexivity].
  assert (Hin : has_pair d k l).
  { rewrite foldM_app in Hfold.
    destruct (foldM read [] pre) as [d1|] eqn:Hpre; [|discriminate Hfold].
    cbn [bind foldM] in Hfold.
    destruct (read_series_cases a k l d1 Ha)
      as [[_ Hr] | (d2 & Hr & Hstored & _)];
      rewrite Hr in Hfold; cbn [bind] in Hfold; [discriminate Hfold|].
    apply (fold_mono mid d2 d Hfold). exact Hstored. }
  cbn [foldM].
  destruct (read_series_cases b k l d Hb) as [[_ Hr] | (d' & Hr & _)].
  - rewrite Hr. reflexivity.
  - exfalso.
    destruct Hb as (attrs & ser & Hattrs & Hobs & Hkey & Hloc).
    destruct Hin as (bl & Hk & Hl).
    unfold read, read_series in Hr. rewrite Hattrs, Hobs in Hr.
    cbn [bind] in Hr. unfold insert_series, dict_getitem in Hr.
    rewrite Hkey, Hloc in Hr. cbn [bind] in Hr.
    assert (Hm : dict_mem d k = true)
      by (unfold dict_mem; rewrite Hk; reflexivity).
    rewrite Hm, Hk in Hr. cbn [negb bind] in Hr.
    rewrite Hl in Hr. discriminate Hr.
Qed.

(** Over readable series the loop can only end in the assertion. *)
Lemma fold_readable (items : list xval) :
  Forall (readable to_concept_id) items ->
  forall all_data,
    foldM read all_data items = Raise AssertionError
    \/ exists all_data', foldM read all_data items = Ok all_data'.
Proof.
  induction 1 as [|item items (k & l & Hitem) _ IH]; intros all_data.
  - right. exists all_data. reflexivity.
  - cbn [foldM].
    destruct (read_series_cases item k l all_data Hitem)
      as [[_ Hr] | (d' & Hr & _)]; rewrite Hr; cbn [bind].
    + left; reflexivity.
    + apply IH.
Qed.

Lemma single_key_value_attrs (item : xval) (kv : string * xval)
  (kvs : list (string * xval)) :
  single_key_value item (kv :: kvs) ->
  series_attrs to_concept_id item = Raise TypeError.
Proof.
  intros (s & sk & Hs & Hsk & Hv). unfold series_attrs.
  rewrite Hs. cbn [bind]. rewrite Hsk. cbn [bind]. rewrite Hv. reflexivity.
Qed.

Lemma single_key_value_read (item : xval) (kvs : list (string * xval))
  (all_data : dict (dict series)) :
  single_key_value item kvs ->
  exists e, read all_data item = Raise e.
Proof.
  intros H. unfold read, read_series. destruct kvs as [|kv kvs].
  - destruct H as (s & sk & Hs & Hsk & Hv). unfold series_attrs.
    rewrite Hs. cbn [bind]. rewrite Hsk. cbn [bind]. rewrite Hv.
    cbn [bind iter map foldM].
    destruct (series_obs item); cbn [bind]; [|eauto].
    unfold insert_series, dict_getitem. cbn. eauto.
  - rewrite (single_key_value_attrs _ _ _ H). cbn [bind]. eauto.
Qed.

(** With any mapping for the key, also one without attributes, no table
    is returned. *)
Lemma single_key_value_no_table (pre post : list xval) (item : xval)
  (kvs : list (string * xval)) (h : store) :
  single_key_value item kvs ->
  exists e, _read_data to_concept_id (pre ++ item :: post) h = (Raise e, h).
Proof.
  intros H. unfold _read_data, bindM, lift. fold read.
  assert (Hloop : forall d, exists e,
             foldM read d (pre ++ item :: post) = Raise e).
  { induction pre as [|x pre IH]; intros d; cbn [app foldM].
    - destruct (single_key_value_read item kvs d H) as [e He].
      rewrite He. cbn [bind]. eauto.
    - destruct (read d x) as [d'|e]; cbn [bind]; eauto. }
  destruct (Hloop []) as [e He]. rewrite He. eauto.
Qed.

(** C9: a series whose key has a single [Value] child, which xmltodict
    returns as a mapping (of its attributes) and not as a list, makes the
    reader raise.  The loop over the key visits the keys of the mapping,
    which are strings, and subscripting a string with ['@concept'] is a
    [TypeError]: it is the exception of the run, unless a series before
    this one raised first. *)
Theorem single_key_value_raises (pre post : list xval) (item : xval)
  (kv : string * xval) (kvs : list (string * xval)) (h : store) :
  single_key_value item (kv :: kvs) ->
  series_attrs to_concept_id item = Raise TypeError
  /\ _read_data to_concept_id (pre ++ item :: post) h
     = (match foldM (read_series to_concept_id) [] pre with
        | Ok _ => Raise TypeError
        | Raise e => Raise e
        end, h).
Proof.
  intros H. pose proof (single_key_value_attrs _ _ _ H) as Hattrs.
  split; [exact Hattrs|].
  unfold _read_data, bindM, lift. rewrite foldM_app.
  destruct (foldM (read_series to_concept_id) [] pre); cbn [bind foldM];
    [|reflexivity].
  unfold read_series at 1. rewrite Hattrs. reflexivity.
Qed.

(** A [Series] element with the two key values and its observations is
    read under the canonical ids of the two codes. *)
Lemma series_elem_is (indicator location : string) (os : list xval)
  (tvs : series) :
  Forall2 has_obs os tvs ->
  series_is to_concept_id (Sample.series_elem indicator location os)
    (to_concept_id indicator) (to_concept_id location).
Proof.
  intros Hobs.
  exists [("key", to_concept_id indicator);
          ("location", to_concept_id location)], tvs.
  split; [reflexivity|]. split; [|split; reflexivity].
  unfold series_obs, Sample.series_elem, Sample.series_of.
  cbn [getitem dict_get String.eqb Ascii.eqb Bool.eqb bind].
  apply obs_normalized. exact Hobs.
Qed.

End Reader.

(** ** Loops and frames *)

Lemma mapM_map {A B : Type} (f : A -> result B) (g : A -> B) (l : list A) :
  (forall x, In x l -> f x = Ok (g x)) -> mapM f l = Ok (map g l).
Proof.
  induction l as [|a l IH]; intros H; [reflexivity|].
  cbn [mapM map]. rewrite (H a (or_introl eq_refl)). cbn [bind].
  rewrite IH; [reflexivity|]. intros x Hx. apply H. right; exact Hx.
Qed.

Lemma mapM_Forall2 {A B : Type} (f : A -> result B) (l : list A)
  (l' : list B) :
  Forall2 (fun x y => f x = Ok y) l l' -> mapM f l = Ok l'.
Proof.
  induction 1 as [|x y l l' Hxy _ IH]; [reflexivity|].
  cbn [mapM]. rewrite Hxy. cbn [bind]. rewrite IH. reflexivity.
Qed.

(** A loop whose steps fail only in [P], and one of which fails, fails in
    [P]. *)
Lemma mapM_raises {A B : Type} (f : A -> result B) (P : exn -> Prop)
  (l : list A) :
  Forall (fun x => (exists y, f x = Ok y) \/ (exists e, f x = Raise e /\ P e)) l ->
  Exists (fun x => exists e, f x = Raise e /\ P e) l ->
  exists e, mapM f l = Raise e /\ P e.
Proof.
  induction 1 as [|x l Hx _ IH]; intros Hex; [inversion Hex|].
  cbn [mapM]. destruct Hx as [[y Hy] | (e & He & HP)].
  - rewrite Hy. cbn [bind].
    inversion Hex as [? ? (e & He & _) | ? ? Hex']; subst; [congruence|].
    destruct (IH Hex') as (e & He & HP). rewrite He. cbn [bind]. eauto.
  - rewrite He. cbn [bind]. eauto.
Qed.

Lemma combine_seq_map {A B : Type} (h : A -> B) (l : list A) (s : nat) :
  map (fun r => (fst r, h (snd r))) (combine (seq s (length l)) l)
  = combine (seq s (length (map h l))) (map h l).
Proof.
  revert s; induction l as [|a l IH]; intros s; [reflexivity|].
  cbn. f_equal. apply IH.
Qed.

Lemma number_map {A B : Type} (h : A -> B) (l : list A) :
  map (fun r => (fst r, h (snd r))) (number l) = number (map h l).
Proof. apply combine_seq_map. Qed.

Lemma number_snd {A : Type} (l : list A) : map snd (number l) = l.
Proof.
  unfold number. generalize 0.
  induction l as [|a l IH]; intros s; [reflexivity|].
  cbn. f_equal. apply IH.
Qed.

Lemma number_map_snd {A B : Type} (h : A -> B) (l : list A) :
  map (fun r => h (snd r)) (number l) = map h l.
Proof. rewrite <- (map_map snd h), number_snd. reflexivity. Qed.

Lemma existsb_keys {V : Type} (d : dict V) (k : string) :
  existsb (String.eqb k) (dict_keys d) = dict_mem d k.
Proof.
  unfold dict_mem. induction d as [|[k' v] d IH]; [reflexivity|].
  cbn. rewrite (String.eqb_sym k k').
  destruct (String.eqb k' k); [reflexivity | exact IH].
Qed.

(** Column positions in a frame with known labels are computed. *)
Ltac eval_col :=
  repeat match goal with
         | |- context [col_index ?l ?c] =>
             let v := eval vm_compute in (col_index l c) in
             change (col_index l c) with v
         end;
  cbv beta iota.

(** ** The location entities *)

Section Entities.

Variable to_concept_id : string -> string.

Lemma cinfo_shaped (c : xval) :
  mapping_shaped c = true ->
  (exists r, cinfo c = Ok r)
  \/ (exists e, cinfo c = Raise e /\ is_lookup_error e = true).
Proof.
  destruct c as [ | |items| ]; try discriminate. cbn [mapping_shaped].
  unfold cinfo, getitem.
  destruct (dict_get items "@value"); cbn [bind]; [|right; eauto].
  destruct (dict_get items "Description") as [d|]; cbn [bind]; [|right; eauto].
  destruct d as [ | |ditems|ds]; try discriminate.
  - intros _. right. cbn. eauto.
  - intros Hds. cbn [getitem_int].
    destruct ds as [|d0 ds]; cbn [nth_error bind]; [right; eauto|].
    cbn in Hds. apply andb_true_iff in Hds as [Hd0 _].
    destruct d0; try discriminate Hd0.
    destruct (dict_get items0 "#text"); cbn [bind]; [left | right]; eauto.
Qed.

Lemma cinfo_single (c : xval) :
  single_description c = true ->
  exists e, cinfo c = Raise e /\ is_lookup_error e = true.
Proof.
  destruct c as [ | |items| ]; try discriminate. cbn [single_description].
  unfold cinfo, getitem.
  destruct (dict_get items "Description") as [d|]; [|discriminate].
  destruct d; try discriminate. intros _.
  destruct (dict_get items "@value"); cbn; eauto.
Qed.

(** C8, as amended: when the location codes are a list of mappings whose
    [Description]s are mappings or lists of mappings, and one of them has
    a single [Description] (a mapping), the extractor raises a lookup
    error: the mapping is subscripted with [0]. *)
Theorem single_description_lookup_error (dsd locs : xval)
  (codes : list xval) :
  code_list dsd 1 = Ok locs ->
  getitem locs "Code" = Ok (XList codes) ->
  forallb mapping_shaped codes = true ->
  existsb single_description codes = true ->
  exists e, extract_entities_location to_concept_id dsd = Raise e
            /\ is_lookup_error e = true.
Proof.
  intros Hlocs Hcodes Hall Hex. unfold extract_entities_location.
  rewrite Hlocs. cbn [bind]. rewrite Hcodes. cbn [bind iter].
  destruct (mapM_raises cinfo (fun e => is_lookup_error e = true) codes)
    as (e & He & HP).
  - rewrite forallb_forall in Hall. apply Forall_forall.
    intros c Hc. apply cinfo_shaped, Hall, Hc.
  - apply existsb_exists in Hex as (c & Hc & Hs).
    apply Exists_exists. exists c. split; [exact Hc|].
    apply cinfo_single, Hs.
  - rewrite He. cbn [bind]. eauto.
Qed.

Lemma cinfo_location_code (c : xval) (r : string * xval) :
  location_code c r -> cinfo c = Ok [CText (fst r); CObj (snd r)].
Proof.
  intros (Hv & ds & d0 & Hd & H0 & Ht). unfold cinfo.
  rewrite Hv. cbn [bind]. rewrite Hd. cbn [bind getitem_int].
  rewrite H0. cbn [bind]. rewrite Ht. reflexivity.
Qed.

(** The extractor on the shape it subscripts: one record per location
    code, in the order of the code list, under the canonical id; the data
    file is not among its arguments. *)
Lemma entities_one_per_code (dsd locs : xval) (codes : list xval)
  (recs : list (string * xval)) :
  code_list dsd 1 = Ok locs ->
  getitem locs "Code" = Ok (XList codes) ->
  Forall2 location_code codes recs ->
  extract_entities_location to_concept_id dsd
  = Ok (pd_DataFrame
          (map (fun r => [CText (to_concept_id (fst r)); CObj (snd r)]) recs)
          ["location"; "name"]).
Proof.
  intros Hlocs Hcodes Hall. unfold extract_entities_location.
  rewrite Hlocs. cbn [bind]. rewrite Hcodes. cbn [bind iter].
  rewrite (mapM_Forall2 cinfo codes
             (map (fun r => [CText (fst r); CObj (snd r)]) recs)).
  2:{ clear Hcodes. induction Hall as [|c r cs rs Hc _ IH]; cbn [map].
      - constructor.
      - constructor; [exact (cinfo_location_code c r Hc) | exact IH]. }
  cbn [bind]. unfold map_column, pd_DataFrame. cbn [columns rows index_name].
  eval_col.
  set (h := fun r : list cell =>
              match r with
              | CObj (XStr s) :: rest => CText (to_concept_id s) :: rest
              | other => other
              end).
  rewrite (mapM_map _ (fun r : nat * list cell => (fst r, h (snd r)))).
  - cbn [bind]. rewrite (number_map h), map_map. reflexivity.
  - intros [i r] Hin. apply (in_map snd) in Hin. rewrite number_snd in Hin.
    apply in_map_iff in Hin as (x & <- & _). reflexivity.
Qed.

End Entities.

(** ** Insertion sort *)

Section InsertionSortFacts.

Variables (A K : Type) (leb : K -> K -> bool).
Hypothesis leb_total : forall a b, leb a b = true \/ leb b a = true.

Let le (x y : K * A) : Prop := leb (fst x) (fst y) = true.

Lemma insert_perm (x : K * A) (l : list (K * A)) :
  Permutation (insert leb x l) (x :: l).
Proof.
  induction l as [|y l IH]; cbn [insert]; [reflexivity|].
  destruct (leb (fst x) (fst y)); [reflexivity|].
  rewrite IH. apply perm_swap.
Qed.

Lemma isort_perm (l : list (K * A)) : Permutation (isort leb l) l.
Proof.
  induction l as [|x l IH]; cbn [isort]; [reflexivity|].
  rewrite insert_perm, IH. reflexivity.
Qed.

Lemma insert_sorted (x : K * A) (l : list (K * A)) :
  Sorted le l -> Sorted le (insert leb x l).
Proof.
  induction 1 as [|y l Hl IH Hhd]; cbn [insert].
  - repeat constructor.
  - destruct (leb (fst x) (fst y)) eqn:E.
    + constructor; [constructor; assumption | constructor; exact E].
    + constructor; [exact IH|].
      assert (Hyx : le y x) by (destruct (leb_total (fst x) (fst y)); congruence).
      destruct Hhd as [|z l Hyz]; cbn [insert].
      * constructor; exact Hyx.
      * destruct (leb (fst x) (fst z)); constructor; assumption.
Qed.

Lemma isort_sorted (l : list (K * A)) : Sorted le (isort leb l).
Proof.
  induction l as [|x l IH]; cbn [isort]; [constructor|].
  apply insert_sorted, IH.
Qed.

(** Sorting moves the rows under their keys and does not look into them. *)
Lemma insert_payload (B : Type) (g : A -> B) (x : K * A) (l : list (K * A)) :
  insert leb (fst x, g (snd x)) (map (fun p => (fst p, g (snd p))) l)
  = map (fun p => (fst p, g (snd p))) (insert leb x l).
Proof.
  induction l as [|y l IH]; cbn [insert map fst snd]; [reflexivity|].
  destruct (leb (fst x) (fst y)); cbn [map fst snd]; [reflexivity|].
  rewrite IH. reflexivity.
Qed.

Lemma isort_payload (B : Type) (g : A -> B) (l : list (K * A)) :
  isort leb (map (fun p => (fst p, g (snd p))) l)
  = map (fun p => (fst p, g (snd p))) (isort leb l).
Proof.
  induction l as [|x l IH]; cbn [isort map]; [reflexivity|].
  rewrite IH. apply insert_payload.
Qed.

End InsertionSortFacts.

Lemma Sorted_map {A B : Type} (R : B -> B -> Prop) (f : A -> B) (l : list A) :
  Sorted (fun x y => R (f x) (f y)) l -> Sorted R (map f l).
Proof.
  induction 1 as [|x l _ IH Hhd]; cbn [map]; constructor; [exact IH|].
  destruct Hhd; cbn [map]; constructor; assumption.
Qed.

Lemma Sorted_weaken {A : Type} (R R' : A -> A -> Prop) (P : A -> Prop)
  (l : list A) :
  (forall x y, P x -> P y -> R x y -> R' x y) ->
  Forall P l -> Sorted R l -> Sorted R' l.
Proof.
  intros HR HP Hs. induction Hs as [|x l _ IH Hhd]; constructor.
  - apply IH. inversion HP; assumption.
  - inversion HP as [|? ? Hx Hl]; subst.
    destruct Hhd; constructor. apply HR; try assumption.
    inversion Hl; assumption.
Qed.

Lemma compare_refl (s : string) : String.compare s s = Eq.
Proof.
  pose proof (String.compare_antisym s s) as H.
  destruct (String.compare s s); try reflexivity; discriminate H.
Qed.

Lemma key_compare_antisym (a b : option string) :
  key_compare a b = CompOpp (key_compare b a).
Proof.
  destruct a, b; cbn; try reflexivity. apply String.compare_antisym.
Qed.

Lemma keys_compare_antisym (a b : list (option string)) :
  keys_compare a b = CompOpp (keys_compare b a).
Proof.
  revert b; induction a as [|x a IH]; intros [|y b]; cbn; try reflexivity.
  rewrite (key_compare_antisym x y).
  destruct (key_compare y x); cbn; [apply IH | reflexivity | reflexivity].
Qed.

Lemma keys_leb_total (a b : list (option string)) :
  keys_leb a b = true \/ keys_leb b a = true.
Proof.
  unfold keys_leb. rewrite (keys_compare_antisym a b).
  destruct (keys_compare b a); cbn; auto.
Qed.

Lemma Sorted_strict (l : list string) :
  Sorted (fun a b => String.leb a b = true) l -> NoDup l ->
  Sorted (fun a b => String.ltb a b = true) l.
Proof.
  induction 1 as [|a l _ IH Hhd]; intros Hnd; constructor.
  - apply IH. inversion Hnd; assumption.
  - destruct Hhd as [|b l Hab]; constructor.
    inversion Hnd as [|? ? Hnotin _]; subst.
    unfold String.leb in Hab. unfold String.ltb.
    destruct (String.compare a b) eqn:E; try reflexivity; try discriminate.
    apply String.compare_eq_iff in E. subst b. elim Hnotin. left; reflexivity.
Qed.

(** ** The continuous concepts *)

Section Concepts.

Variable to_concept_id : string -> string.

Let cid := concept_id to_concept_id.
Let irow := index_row to_concept_id.

Lemma indi_info_indicator_code (c : xval) (r : concept) :
  indicator_code c r ->
  indi_info c
  = Ok [CText (concept_code r);
        match concept_parent r with Some p => CText p | None => CNaN end;
        CObj (concept_name r)].
Proof.
  intros (items & d & -> & Hv & Hp & Hd & Ht). unfold indi_info.
  cbn [getitem keys bind]. rewrite Hv. cbn [bind].
  rewrite existsb_keys. unfold dict_mem. rewrite Hp, Hd. cbn [bind].
  unfold description_text in Ht.
  destruct (isinstance_dict d).
  - destruct (concept_parent r); cbn [option_map bind]; rewrite ?Hp;
      cbn [bind]; rewrite Ht; reflexivity.
  - destruct Ht as (d0 & H0 & Ht).
    destruct (concept_parent r); cbn [option_map bind]; rewrite ?Hp;
      cbn [bind]; rewrite H0; cbn [bind]; rewrite Ht; reflexivity.
Qed.

(** Lines 99-128 on a list of indicator codes: one row per code, in the
    order of the code list, under the canonical id of the code. *)
Lemma concept_index_codes (dsd inds : xval) (codes : list xval)
  (recs : list concept) :
  code_list dsd 0 = Ok inds ->
  getitem inds "Code" = Ok (XList codes) ->
  Forall2 indicator_code codes recs ->
  concept_index to_concept_id dsd
  = Ok (mkDataFrame (Some "concept") ["drillup"; "name"; "concept_type"]
          (map irow recs)).
Proof.
  intros Hinds Hcodes Hall. unfold concept_index.
  rewrite Hinds. cbn [bind]. rewrite Hcodes. cbn [bind iter].
  set (raw := fun r : concept =>
         [CText (concept_code r);
          match concept_parent r with Some p => CText p | None => CNaN end;
          CObj (concept_name r)]).
  rewrite (mapM_Forall2 indi_info codes (map raw recs)).
  2:{ clear Hcodes. induction Hall as [|c r cs rs Hc _ IH]; cbn [map].
      - constructor.
      - constructor; [exact (indi_info_indicator_code c r Hc) | exact IH]. }
  cbn [bind]. unfold map_column at 1. unfold pd_DataFrame.
  cbn [columns rows index_name]. eval_col.
  set (h1 := fun r : list cell =>
               match r with
               | CObj (XStr s) :: rest => CText (to_concept_id s) :: rest
               | other => other
               end).
  rewrite (mapM_map _ (fun r : nat * list cell => (fst r, h1 (snd r)))).
  2:{ intros [i r] Hin. apply (in_map snd) in Hin. rewrite number_snd in Hin.
      apply in_map_iff in Hin as (x & <- & _). reflexivity. }
  cbn [bind]. rewrite (number_map h1), map_map.
  unfold map_column. cbn [columns rows index_name]. eval_col.
  set (h2 := fun r : list cell =>
               match r with
               | a :: CObj (XStr s) :: rest => a :: CText (to_concept_id s) :: rest
               | other => other
               end).
  rewrite (mapM_map _ (fun r : nat * list cell => (fst r, h2 (snd r)))).
  2:{ intros [i r] Hin. apply (in_map snd) in Hin. rewrite number_snd in Hin.
      apply in_map_iff in Hin as (x & <- & _).
      unfold raw, h1, h2. destruct (concept_parent x); reflexivity. }
  cbn [bind]. rewrite (number_map h2), map_map.
  unfold setitem_scalar. cbn [columns rows index_name]. eval_col.
  unfold map_rows. cbn [rows].
  rewrite (number_map (fun r : list cell => r ++ [CText "measure"])), map_map.
  unfold set_index. cbn [columns rows index_name]. eval_col.
  unfold map_rows. cbn [rows].
  rewrite (number_map_snd (fun r : list cell => (cell_at r 0, remove_nth 0 r))).
  rewrite map_map. f_equal. f_equal.
  apply map_ext. intros x. unfold raw, h1, h2, irow, index_row, concept_id.
  destruct (concept_parent x); reflexivity.
Qed.

Lemma label_is_irow (k : string) (r : concept) :
  label_is k (irow r) = String.eqb (cid r) k.
Proof. reflexivity. Qed.

Lemma filter_label_none (k : string) (recs : list concept) :
  ~ In k (map cid recs) -> filter (label_is k) (map irow recs) = [].
Proof.
  induction recs as [|r recs IH]; intros Hk; [reflexivity|].
  cbn [map filter]. rewrite label_is_irow.
  destruct (String.eqb (cid r) k) eqn:E.
  - apply String.eqb_eq in E. elim Hk. left; exact E.
  - apply IH. intros Hin. apply Hk. right; exact Hin.
Qed.

Lemma filter_label_unique (k : string) (recs : list concept) :
  NoDup (map cid recs) -> In k (map cid recs) ->
  exists r, In r recs /\ cid r = k
            /\ filter (label_is k) (map irow recs) = [irow r].
Proof.
  induction recs as [|r recs IH]; intros Hnd Hin; [destruct Hin|].
  cbn [map] in Hnd. inversion Hnd as [|? ? Hnotin Hnd']; subst.
  cbn [map filter]. rewrite label_is_irow.
  destruct (String.eqb (cid r) k) eqn:E.
  - apply String.eqb_eq in E. exists r. split; [left; reflexivity|].
    split; [exact E|]. rewrite filter_label_none; [reflexivity|].
    rewrite <- E. exact Hnotin.
  - apply String.eqb_neq in E. destruct Hin as [Hin | Hin]; [contradiction|].
    destruct (IH Hnd' Hin) as (r' & Hr' & Hk & Hf).
    exists r'. split; [right; exact Hr' | split; assumption].
Qed.

(** C4: when the DSD's indicator code list holds its codes as a sequence
    of code mappings, an indicator of the data mapping whose id is not the
    canonical id of any of these codes makes the extractor raise
    [KeyError], a lookup error; no table is returned. *)
Theorem unknown_indicator_raises {V : Type} (data : dict V) (dsd inds : xval)
  (codes : list xval) (recs : list concept) (k : string) :
  code_list dsd 0 = Ok inds ->
  getitem inds "Code" = Ok (XList codes) ->
  Forall2 indicator_code codes recs ->
  In k (dict_keys data) ->
  ~ In k (map (concept_id to_concept_id) recs) ->
  extract_concepts_continuous to_concept_id data dsd = Raise KeyError
  /\ is_lookup_error KeyError = true.
Proof.
  intros Hinds Hcodes Hall Hk Hnot. split; [|reflexivity].
  unfold extract_concepts_continuous.
  rewrite (concept_index_codes dsd inds codes recs Hinds Hcodes Hall).
  cbn [bind]. unfold loc. cbn [rows].
  destruct (mapM_raises
              (fun l => match filter (label_is l) (map irow recs) with
                        | [] => Raise KeyError
                        | rs => Ok rs
                        end)
              (fun e => e = KeyError) (dict_keys data)) as (e & He & ->).
  - apply Forall_forall. intros l _.
    destruct (filter (label_is l) (map irow recs)); [right | left]; eauto.
  - apply Exists_exists. exists k. split; [exact Hk|].
    rewrite (filter_label_none k recs Hnot). eauto.
  - rewrite He. reflexivity.
Qed.

Lemma loc_picks (ks : list string) (recs : list concept) :
  NoDup (map cid recs) -> incl ks (map cid recs) ->
  exists picked,
    map cid picked = ks /\ incl picked recs
    /\ mapM (fun l => match filter (label_is l) (map irow recs) with
                      | [] => Raise KeyError
                      | rs => Ok rs
                      end) ks
       = Ok (map (fun r => [irow r]) picked).
Proof.
  intros Hnd. induction ks as [|k ks IH]; intros Hincl.
  - exists []. repeat split. intros x [].
  - destruct (filter_label_unique k recs Hnd (Hincl k (or_introl eq_refl)))
      as (r & Hr & Hk & Hf).
    destruct IH as (picked & Hids & Hpin & Hm).
    { intros x Hx. apply Hincl. right; exact Hx. }
    exists (r :: picked). cbn [map mapM]. rewrite Hf, Hm, Hk, Hids.
    repeat split. intros x [<- | Hx]; [exact Hr | apply Hpin, Hx].
Qed.

Lemma concat_singletons {A B : Type} (f : A -> B) (l : list A) :
  List.concat (map (fun x => [f x]) l) = map f l.
Proof. induction l as [|a l IH]; cbn; [reflexivity | rewrite IH; reflexivity]. Qed.

(** C3, as amended: when the indicator codes are a list of code mappings
    with text values, their canonical ids are pairwise distinct, and every
    indicator of the data mapping is among these ids, the extractor
    returns the table with the columns (concept, name, concept_type) and
    exactly one row per indicator of the data mapping: the ids of the rows
    are the keys of the mapping in strictly ascending order, each row has
    the name of its code in the DSD, and every concept type is
    ['measure'].  Codes of the DSD that are no key of the mapping have no
    row. *)
Theorem concepts_one_row_per_indicator {V : Type} (data : dict V)
  (dsd inds : xval) (codes : list xval) (recs : list concept) :
  code_list dsd 0 = Ok inds ->
  getitem inds "Code" = Ok (XList codes) ->
  Forall2 indicator_code codes recs ->
  NoDup (map (concept_id to_concept_id) recs) ->
  NoDup (dict_keys data) ->
  incl (dict_keys data) (map (concept_id to_concept_id) recs) ->
  exists out,
    extract_concepts_continuous to_concept_id data dsd
    = Ok (pd_DataFrame (map (concept_row to_concept_id) out)
            ["concept"; "name"; "concept_type"])
    /\ incl out recs
    /\ Permutation (map (concept_id to_concept_id) out) (dict_keys data)
    /\ NoDup (map (concept_id to_concept_id) out)
    /\ Sorted (fun a b => String.ltb a b = true)
         (map (concept_id to_concept_id) out).
Proof.
  intros Hinds Hcodes Hall Hnd Hkeys Hincl.
  destruct (loc_picks (dict_keys data) recs Hnd Hincl)
    as (picked & Hids & Hpin & Hm).
  set (keyed := map (fun r => ([Some (cid r)], r)) picked).
  set (sorted := isort keys_leb keyed).
  assert (Hperm : Permutation (map snd sorted) picked).
  { unfold sorted. rewrite (isort_perm _ _ keys_leb keyed). unfold keyed.
    rewrite map_map. cbn [snd]. rewrite map_id. reflexivity. }
  assert (Hpermk : Permutation (map cid (map snd sorted)) (dict_keys data)).
  { rewrite Hperm, Hids. reflexivity. }
  exists (map snd sorted). split; [|split; [|split; [|split]]].
  - unfold extract_concepts_continuous.
    rewrite (concept_index_codes dsd inds codes recs Hinds Hcodes Hall).
    cbn [bind]. unfold loc. cbn [rows]. rewrite Hm. cbn [bind].
    rewrite concat_singletons. cbn [index_name columns].
    unfold sort_index. cbn [rows index_name columns].
    rewrite (mapM_map _ (fun r : cell * list cell =>
               ([match fst r with
                 | CObj (XStr s) => Some s
                 | _ => None
                 end], r))).
    2:{ intros x Hx. apply in_map_iff in Hx as (r & <- & _). reflexivity. }
    cbn [bind]. rewrite map_map.
    match goal with
    | |- context [isort keys_leb ?l] =>
        replace l
          with (map (fun p : list (option string) * concept =>
                       (fst p, irow (snd p))) keyed)
          by (unfold keyed; rewrite map_map; reflexivity)
    end.
    rewrite (isort_payload _ _ keys_leb _ irow keyed). fold sorted.
    rewrite map_map. cbn [snd].
    unfold select. cbn [columns mapM]. eval_col. cbn [bind].
    unfold map_rows. cbn [rows index_name]. rewrite map_map.
    unfold reset_index. cbn [index_name columns rows].
    change (existsb (String.eqb "concept") ["name"; "concept_type"]) with false.
    cbv iota. rewrite map_map. unfold pd_DataFrame.
    rewrite (map_map snd). reflexivity.
  - intros x Hx. apply Hpin. eapply Permutation_in; [exact Hperm | exact Hx].
  - exact Hpermk.
  - eapply Permutation_NoDup; [symmetry; exact Hpermk | exact Hkeys].
  - apply Sorted_strict.
    2:{ eapply Permutation_NoDup; [symmetry; exact Hpermk | exact Hkeys]. }
    rewrite map_map. apply Sorted_map.
    apply (Sorted_weaken
             (fun x y => keys_leb (fst x) (fst y) = true)
             (fun x y => String.leb (cid (snd x)) (cid (snd y)) = true)
             (fun x => fst x = [Some (cid (snd x))])).
    + intros x y Hx Hy. rewrite Hx, Hy. unfold keys_leb, String.leb.
      cbn [keys_compare key_compare].
      destruct (String.compare (cid (snd x)) (cid (snd y))); auto.
    + apply Forall_forall. intros x Hx.
      apply (Permutation_in _ (isort_perm _ _ keys_leb keyed)) in Hx.
      unfold keyed in Hx. apply in_map_iff in Hx as (r & <- & _). reflexivity.
    + apply isort_sorted. apply keys_leb_total.
Qed.

End Concepts.

(** ** The datapoints *)

Lemma extends_ret {A : Type} (a : A) : extends (ret a).
Proof. intros h. exists []. cbn. rewrite app_nil_r. reflexivity. Qed.

Lemma extends_lift {A : Type} (r : result A) : extends (lift r).
Proof. intros h. exists []. cbn. rewrite app_nil_r. reflexivity. Qed.

Lemma extends_load (r : ref) : extends (load r).
Proof.
  intros h. exists []. unfold load.
  destruct (nth_error h r); cbn; rewrite app_nil_r; reflexivity.
Qed.

Lemma extends_alloc (df : DataFrame nat) : extends (alloc df).
Proof. intros h. exists [df]. reflexivity. Qed.

Lemma extends_bindM {A B : Type} (m : M A) (f : A -> M B) :
  extends m -> (forall a, extends (f a)) -> extends (bindM m f).
Proof.
  intros Hm Hf h. unfold bindM. destruct (Hm h) as [t Ht].
  destruct (m h) as [[a|e] h1]; cbn [snd] in *; subst h1.
  - destruct (Hf a (h ++ t)) as [t' Ht']. exists (t ++ t').
    rewrite Ht', app_assoc. reflexivity.
  - exists t. reflexivity.
Qed.

Create HintDb extends.

#[local] Hint Resolve extends_ret extends_lift extends_load extends_alloc
  : extends.

Ltac extends_tac :=
  repeat (apply extends_bindM; [|intros ?]); auto with extends.

Lemma extends_method (r : ref) (f : DataFrame nat -> result (DataFrame nat)) :
  extends (method r f).
Proof. unfold method. extends_tac. Qed.

#[local] Hint Resolve extends_method : extends.

Lemma extends_datapoints (k : string) (r : ref) : extends (datapoints k r).
Proof. unfold datapoints. extends_tac. Qed.

Lemma extends_consume {A : Type} (g : generator A) :
  Forall extends g -> extends (consume g).
Proof.
  induction 1 as [|m g Hm _ IH]; cbn [consume]; [apply extends_ret|].
  extends_tac.
Qed.

Lemma extends_extract_datapoints (data : dict ref) :
  extends (consume (extract_datapoints data)).
Proof.
  apply extends_consume, Forall_forall. intros m Hm.
  apply in_map_iff in Hm as (kv & <- & _). apply extends_datapoints.
Qed.

(** C10: consuming the generator to its end, or to the exception that
    ends it, leaves the input mapping as it was: every key still refers to
    the table it referred to, and the table is unchanged, because every
    step of the generator makes a new frame and none assigns into one. *)
Theorem extract_datapoints_keeps_input (data : dict ref) (h : store)
  (k : string) (r : ref) (df : DataFrame nat) :
  In (k, r) data ->
  nth_error h r = Some df ->
  nth_error (snd (consume (extract_datapoints data) h)) r = Some df.
Proof.
  intros _ Hr.
  destruct (extends_extract_datapoints data h) as [t Ht].
  rewrite Ht. rewrite nth_error_app1; [exact Hr|].
  apply nth_error_Some. congruence.
Qed.

Lemma col_index_lt (cols : list string) (c : string) (i : nat) :
  col_index cols c = Some i -> i < length cols.
Proof.
  revert i; induction cols as [|a cols IH]; cbn; intros i H; [discriminate|].
  destruct (String.eqb a c).
  - injection H as <-. lia.
  - destruct (col_index cols c) as [j|]; cbn in H; [|discriminate].
    injection H as <-. specialize (IH j eq_refl). lia.
Qed.

Lemma mask_filter {A : Type} (p : A -> bool) (l : list A) :
  map fst (filter snd (combine l (map p l))) = filter p l.
Proof.
  induction l as [|a l IH]; cbn; [reflexivity|].
  destruct (p a); cbn; rewrite IH; reflexivity.
Qed.

Lemma filter_filter {A : Type} (p q : A -> bool) (l : list A) :
  filter p (filter q l) = filter (fun x => q x && p x) l.
Proof.
  induction l as [|a l IH]; cbn; [reflexivity|].
  destruct (q a); cbn; [destruct (p a)|]; rewrite IH; reflexivity.
Qed.

Lemma sort_key_text (c : cell) :
  isna c = false -> sortable c = true ->
  exists s, cell_text c = Some s /\ sort_key c = Ok (Some s).
Proof. destruct c as [|[ | | | ]]; cbn; try discriminate; eauto. Qed.

Lemma keys_leb_pair (l1 t1 l2 t2 : string) :
  keys_leb [Some l1; Some t1] [Some l2; Some t2] = true ->
  String.ltb l1 l2 = true \/ (l1 = l2 /\ String.leb t1 t2 = true).
Proof.
  unfold keys_leb, String.ltb, String.leb. cbn [keys_compare key_compare].
  destruct (String.compare l1 l2) eqn:El; [|auto|discriminate].
  apply String.compare_eq_iff in El. intros H. right. split; [exact El|].
  destruct (String.compare t1 t2); [reflexivity | reflexivity | discriminate].
Qed.

(** The cell of a kept row under a column of the table is text. *)
Lemma kept_cell_text (k : string) (df : DataFrame nat) (r : nat * list cell)
  (i : nat) :
  i < length (columns df) ->
  length (snd r) = length (columns df) ->
  sortable (cell_at (snd r) i) = true ->
  kept k df r = true ->
  exists s, cell_text (cell_at (snd r) i) = Some s
            /\ sort_key (cell_at (snd r) i) = Ok (Some s).
Proof.
  intros Hi Hlen Hsort Hkept. apply sort_key_text; [|exact Hsort].
  unfold kept in Hkept. apply andb_true_iff in Hkept as [Hna _].
  rewrite forallb_forall in Hna.
  specialize (Hna (cell_at (snd r) i)).
  rewrite negb_true_iff in Hna. apply Hna.
  unfold cell_at. apply nth_In. lia.
Qed.

(** Lines 165-168 on the frames themselves. *)
Lemma datapoints_frames (k : string) (df : DataFrame nat) :
  indicator_table k df = true ->
  exists col df3 df',
    getcol (dropna df) k = Ok col
    /\ select (getitem_mask (dropna df) (map (fun c => ne_str c "NaN") col))
         ["location"; "time"; k] = Ok df3
    /\ sort_values df3 ["location"; "time"] = Ok df'
    /\ datapoints_table k df df'.
Proof.
  unfold indicator_table.
  destruct (col_index (columns df) "location") as [il|] eqn:Hil; [|discriminate].
  destruct (col_index (columns df) "time") as [it|] eqn:Hit; [|discriminate].
  destruct (col_index (columns df) k) as [ik|] eqn:Hik; [|discriminate].
  intros H. apply andb_true_iff in H as [_ Hrows].
  rewrite forallb_forall in Hrows.
  assert (Hrow : forall r, In r (rows df) ->
            length (snd r) = length (columns df)
            /\ sortable (cell_at (snd r) il) = true
            /\ sortable (cell_at (snd r) it) = true).
  { intros r Hr. specialize (Hrows r Hr).
    apply andb_true_iff in Hrows as [Hrows H3].
    apply andb_true_iff in Hrows as [H1 H2].
    apply Nat.eqb_eq in H1. auto. }
  clear Hrows.
  set (rows2 := filter (kept k df) (rows df)).
  assert (Hmask :
    rows (getitem_mask (dropna df)
            (map (fun c => ne_str c "NaN")
               (map (fun r : nat * list cell => cell_at (snd r) ik)
                  (rows (dropna df))))) = rows2).
  { cbn [getitem_mask rows]. rewrite map_map.
    rewrite (mask_filter (fun r : nat * list cell =>
                            ne_str (cell_at (snd r) ik) "NaN")).
    cbn [dropna rows]. rewrite filter_filter. apply filter_ext.
    intros r. unfold kept, column_cell. rewrite Hik. reflexivity. }
  set (rows3 := map (datapoint k df) rows2).
  set (key := fun r : nat * list cell =>
                ([cell_text (cell_at (snd r) 0); cell_text (cell_at (snd r) 1)], r)).
  assert (Hkey : forall r, In r rows3 ->
            exists l t, cell_text (cell_at (snd r) 0) = Some l
                        /\ cell_text (cell_at (snd r) 1) = Some t
                        /\ sort_key (cell_at (snd r) 0) = Ok (Some l)
                        /\ sort_key (cell_at (snd r) 1) = Ok (Some t)).
  { intros r Hr. apply in_map_iff in Hr as (r0 & <- & Hr0).
    apply filter_In in Hr0 as [Hin Hkept].
    destruct (Hrow r0 Hin) as (Hlen & Hsl & Hst).
    destruct (kept_cell_text k df r0 il (col_index_lt _ _ _ Hil) Hlen Hsl Hkept)
      as (l & Hl1 & Hl2).
    destruct (kept_cell_text k df r0 it (col_index_lt _ _ _ Hit) Hlen Hst Hkept)
      as (t & Ht1 & Ht2).
    exists l, t. unfold datapoint, column_cell. rewrite Hil, Hit.
    cbn [snd cell_at nth]. auto. }
  exists (map (fun r : nat * list cell => cell_at (snd r) ik) (rows (dropna df))).
  exists (mkDataFrame (index_name df) ["location"; "time"; k] rows3).
  exists (mkDataFrame (index_name df) ["location"; "time"; k]
            (map snd (isort keys_leb (map key rows3)))).
  split; [|split; [|split]].
  - unfold getcol. cbn [dropna columns]. rewrite Hik. reflexivity.
  - unfold select. cbn [getitem_mask dropna columns mapM].
    rewrite Hil, Hit, Hik. cbn [bind]. unfold map_rows.
    cbn [index_name]. f_equal. f_equal.
    change (filter (fun r : nat * list cell =>
                      forallb (fun c : cell => negb (isna c)) (snd r)) (rows df))
      with (rows (dropna df)).
    change (map fst (filter snd (combine (rows (dropna df))
              (map (fun c => ne_str c "NaN")
                 (map (fun r : nat * list cell => cell_at (snd r) ik)
                    (rows (dropna df)))))))
      with (rows (getitem_mask (dropna df)
              (map (fun c => ne_str c "NaN")
                 (map (fun r : nat * list cell => cell_at (snd r) ik)
                    (rows (dropna df)))))).
    rewrite Hmask. unfold rows3. apply map_ext. intros r.
    unfold datapoint, column_cell. rewrite Hil, Hit, Hik. reflexivity.
  - unfold sort_values. cbn [columns mapM]. eval_col. cbn [bind rows].
    rewrite (mapM_map _ key); [reflexivity|].
    intros r Hr. destruct (Hkey r Hr) as (l & t & Hl1 & Ht1 & Hl2 & Ht2).
    unfold key. cbn [mapM]. rewrite Hl2. cbn [bind]. rewrite Ht2. cbn [bind].
    rewrite Hl1, Ht1. reflexivity.
  - assert (Hperm : Permutation (map snd (isort keys_leb (map key rows3))) rows3).
    { rewrite (isort_perm _ _ keys_leb (map key rows3)), map_map.
      cbn [key snd]. rewrite map_id. reflexivity. }
    unfold datapoints_table. cbn [columns rows].
    split; [reflexivity|]. split; [exact Hperm|]. split.
    + apply Sorted_map.
      apply (Sorted_weaken
               (fun x y => keys_leb (fst x) (fst y) = true)
               (fun x y => datapoint_le (snd x) (snd y))
               (fun x => In (snd x) rows3 /\ x = key (snd x))).
      * intros x y [Hx Ex] [Hy Ey] Hle.
        destruct (Hkey _ Hx) as (l1 & t1 & Hl1 & Ht1 & _).
        destruct (Hkey _ Hy) as (l2 & t2 & Hl2 & Ht2 & _).
        exists l1, t1, l2, t2. repeat (split; [assumption|]).
        apply keys_leb_pair. rewrite Ex, Ey in Hle. unfold key in Hle.
        cbn [fst snd] in Hle. rewrite Hl1, Ht1, Hl2, Ht2 in Hle. exact Hle.
      * apply Forall_forall. intros x Hx.
        apply (Permutation_in _ (isort_perm _ _ keys_leb (map key rows3))) in Hx.
        apply in_map_iff in Hx as (r & <- & Hr). split; [exact Hr | reflexivity].
      * apply isort_sorted. apply keys_leb_total.
    + intros Hnil. fold rows2 in Hnil. unfold rows3. rewrite Hnil. reflexivity.
Qed.

Lemma bindM_ok {A B : Type} (m : M A) (f : A -> M B) (h h1 : store) (a : A) :
  m h = (Ok a, h1) -> bindM m f h = f a h1.
Proof. intros H. unfold bindM. rewrite H. reflexivity. Qed.

Lemma method_run (r : ref) (f : DataFrame nat -> result (DataFrame nat))
  (h : store) (df df' : DataFrame nat) :
  nth_error h r = Some df -> f df = Ok df' ->
  method r f h = (Ok (length h), h ++ [df']).
Proof.
  intros Hr Hf. unfold method, bindM, load, lift, alloc.
  rewrite Hr, Hf. reflexivity.
Qed.

Lemma nth_error_snoc {A : Type} (h : list A) (x : A) :
  nth_error (h ++ [x]) (length h) = Some x.
Proof. rewrite nth_error_app2, Nat.sub_diag; [reflexivity | lia]. Qed.

(** One item of the generator, on an indicator table of the store. *)
Lemma datapoints_run (k : string) (r : ref) (h : store) (df : DataFrame nat) :
  nth_error h r = Some df ->
  indicator_table k df = true ->
  exists r' h' df',
    datapoints k r h = (Ok (k, r'), h')
    /\ nth_error h' r' = Some df'
    /\ datapoints_table k df df'.
Proof.
  intros Hr Htable.
  destruct (datapoints_frames k df Htable)
    as (col & df3 & df' & Hcol & Hsel & Hsort & Hspec).
  set (df2 := getitem_mask (dropna df) (map (fun c => ne_str c "NaN") col)) in *.
  set (h1 := h ++ [dropna df]).
  set (h2 := h1 ++ [df2]).
  set (h3 := h2 ++ [df3]).
  exists (length h3), (h3 ++ [df']), df'.
  split; [|split; [apply nth_error_snoc | exact Hspec]].
  unfold datapoints.
  rewrite (bindM_ok _ _ h h1 (length h)) by (apply (method_run r _ h df); auto).
  rewrite (bindM_ok _ _ h1 h1 (dropna df))
    by (unfold load, h1; rewrite nth_error_snoc; reflexivity).
  rewrite (bindM_ok _ _ h1 h1 col) by (unfold lift; rewrite Hcol; reflexivity).
  rewrite (bindM_ok _ _ h1 h2 (length h1))
    by (apply (method_run _ _ h1 (dropna df)); [apply nth_error_snoc | reflexivity]).
  rewrite (bindM_ok _ _ h2 h3 (length h2))
    by (apply (method_run _ _ h2 df2); [apply nth_error_snoc | exact Hsel]).
  rewrite (bindM_ok _ _ h3 (h3 ++ [df']) (length h3))
    by (apply (method_run _ _ h3 df3); [apply nth_error_snoc | exact Hsort]).
  reflexivity.
Qed.

Lemma extract_datapoints_from (data : dict ref) (h0 : store) :
  Forall (fun kv => exists df, nth_error h0 (snd kv) = Some df
                               /\ indicator_table (fst kv) df = true) data ->
  forall h,
    (exists t, h = h0 ++ t) ->
    exists out h',
      consume (extract_datapoints data) h = (Ok out, h')
      /\ Forall2 (fun kv kr =>
                    fst kr = fst kv
                    /\ exists df df',
                         nth_error h0 (snd kv) = Some df
                         /\ nth_error h' (snd kr) = Some df'
                         /\ datapoints_table (fst kv) df df') data out.
Proof.
  induction 1 as [|[k r] data (df & Hr & Htable) _ IH]; intros h [t Ht].
  - exists [], h. split; [reflexivity | constructor].
  - cbn [fst snd] in *.
    assert (Hrh : nth_error h r = Some df).
    { rewrite Ht, nth_error_app1; [exact Hr|].
      apply nth_error_Some. congruence. }
    destruct (datapoints_run k r h df Hrh Htable)
      as (r' & h1 & df' & Hrun & Hr' & Hspec).
    destruct (extends_datapoints k r h) as [t1 Ht1].
    rewrite Hrun in Ht1. cbn [snd] in Ht1.
    destruct (IH h1) as (out & h' & Hrest & Hall).
    { exists (t ++ t1). rewrite Ht1, Ht, app_assoc. reflexivity. }
    destruct (extends_extract_datapoints data h1) as [t2 Ht2].
    rewrite Hrest in Ht2. cbn [snd] in Ht2.
    exists ((k, r') :: out), h'. split.
    + cbn [extract_datapoints map consume fst snd].
      rewrite (bindM_ok _ _ h h1 (k, r') Hrun).
      fold (extract_datapoints data).
      rewrite (bindM_ok _ _ h1 h' out Hrest). reflexivity.
    + constructor; [|exact Hall]. cbn [fst snd]. split; [reflexivity|].
      exists df, df'. split; [exact Hr|]. split; [|exact Hspec].
      rewrite Ht2, nth_error_app1; [exact Hr'|].
      apply nth_error_Some. congruence.
Qed.

(** C2: over a mapping of indicator tables the generator yields, for every
    indicator and in the order of the mapping, a new table under the
    columns (location, time, indicator) whose rows are exactly the rows of
    the input table that have no missing value and whose value is not the
    text ["NaN"], in ascending order of (location, time); when every row
    is dropped the yielded table has no rows. *)
Theorem extract_datapoints_tables (data : dict ref) (h : store) :
  Forall (fun kv => exists df, nth_error h (snd kv) = Some df
                               /\ indicator_table (fst kv) df = true) data ->
  exists out h',
    consume (extract_datapoints data) h = (Ok out, h')
    /\ Forall2 (fun kv kr =>
                  fst kr = fst kv
                  /\ exists df df',
                       nth_error h (snd kv) = Some df
                       /\ nth_error h' (snd kr) = Some df'
                       /\ datapoints_table (fst kv) df df') data out.
Proof.
  intros Hall. apply (extract_datapoints_from data h Hall h).
  exists []. rewrite app_nil_r. reflexivity.
Qed.

(** * Further properties of the script *)

(** ** Code lists of one code, and DSDs of one code list *)

Section SingleChild.

Variable to_concept_id : string -> string.

(** X1: when the first code list has a single [Code] child, which
    xmltodict returns as the code mapping itself, the loop of line 103 runs
    over the keys of that mapping, and [extract_concepts_continuous]
    raises [TypeError] whatever the data mapping is. *)
Theorem concepts_single_code_type_error {V : Type} (data : dict V)
  (dsd inds : xval) (kv : string * xval) (items : list (string * xval)) :
  code_list dsd 0 = Ok inds ->
  getitem inds "Code" = Ok (XDict (kv :: items)) ->
  extract_concepts_continuous to_concept_id data dsd = Raise TypeError.
Proof.
  intros Hinds Hcode. unfold extract_concepts_continuous, concept_index.
  rewrite Hinds. cbn [bind]. rewrite Hcode. reflexivity.
Qed.

(** X2: when the location code list has a single [Code] child, the loop
    of line 152 runs over the keys of the code mapping, and
    [extract_entities_location] raises [TypeError]. *)
Theorem entities_single_code_type_error (dsd locs : xval)
  (kv : string * xval) (items : list (string * xval)) :
  code_list dsd 1 = Ok locs ->
  getitem locs "Code" = Ok (XDict (kv :: items)) ->
  extract_entities_location to_concept_id dsd = Raise TypeError.
Proof.
  intros Hlocs Hcode. unfold extract_entities_location.
  rewrite Hlocs. cbn [bind]. rewrite Hcode. reflexivity.
Qed.

(** X3: when the DSD has a single [CodeList] child, a mapping, the
    subscripts [0] and [1] of lines 99 and 148 are looked up as keys, and
    both extractors raise [KeyError]. *)
Theorem single_code_list_key_error {V : Type} (data : dict V)
  (dsd m cls : xval) (items : list (string * xval)) :
  getitem dsd "message:Structure" = Ok m ->
  getitem m "message:CodeLists" = Ok cls ->
  getitem cls "CodeList" = Ok (XDict items) ->
  extract_concepts_continuous to_concept_id data dsd = Raise KeyError
  /\ extract_entities_location to_concept_id dsd = Raise KeyError.
Proof.
  intros Hm Hcls Hcl.
  unfold extract_concepts_continuous, concept_index,
    extract_entities_location, code_list.
  rewrite Hm. cbn [bind]. rewrite Hcls. cbn [bind]. rewrite Hcl.
  split; reflexivity.
Qed.

End SingleChild.

(** ** The key of a series *)

Section SeriesKey.

Variable to_concept_id : string -> string.

Let step (attrs : dict string) (i : xval) : result (dict string) :=
  c <- getitem i "@concept" ;;
  attrs1 <- (if eq_str c "EDULIT_IND"
             then v <- getitem i "@value" ;;
                  id <- to_concept_id_x to_concept_id v ;;
                  Ok (dict_set attrs "key" id)
             else Ok attrs) ;;
  c' <- getitem i "@concept" ;;
  if eq_str c' "LOCATION"
  then v <- getitem i "@value" ;;
       id <- to_concept_id_x to_concept_id v ;;
       Ok (dict_set attrs1 "location" id)
  else Ok attrs1.

Let pick (c : string) (acc : option string) (cv : string * string)
  : option string :=
  if String.eqb (fst cv) c then Some (snd cv) else acc.

Lemma key_loop (vs : list xval) (cvs : list (string * string)) :
  Forall2 key_value_of vs cvs ->
  forall attrs k l,
    dict_get attrs "key" = option_map to_concept_id k ->
    dict_get attrs "location" = option_map to_concept_id l ->
    exists attrs',
      foldM step attrs vs = Ok attrs'
      /\ dict_get attrs' "key"
         = option_map to_concept_id (fold_left (pick "EDULIT_IND") cvs k)
      /\ dict_get attrs' "location"
         = option_map to_concept_id (fold_left (pick "LOCATION") cvs l).
Proof.
  induction 1 as [|v [c x] vs cvs [Hc Hx] _ IH]; intros attrs k l Hk Hl.
  - exists attrs. auto.
  - cbn [foldM fold_left fst snd] in *. unfold step at 1.
    rewrite Hc. cbn [bind eq_str]. unfold pick at 2 4. cbn [fst snd].
    destruct (String.eqb c "EDULIT_IND") eqn:Ek.
    + apply String.eqb_eq in Ek. subst c.
      rewrite Hx. cbn [bind to_concept_id_x String.eqb Ascii.eqb Bool.eqb].
      apply IH.
      * rewrite dict_get_set. reflexivity.
      * rewrite dict_get_set. exact Hl.
    + cbn [bind]. destruct (String.eqb c "LOCATION") eqn:El.
      * rewrite Hx. cbn [bind to_concept_id_x]. apply IH.
        -- rewrite dict_get_set. exact Hk.
        -- rewrite dict_get_set. reflexivity.
      * apply IH; assumption.
Qed.

(** X4: of the values of a series key, the reader takes the one with the
    concept [EDULIT_IND] for the indicator and the one with the concept
    [LOCATION] for the location, each canonicalized; when a concept comes
    twice its last value is taken, values of other concepts are not
    looked at, and a concept that does not come leaves its attribute
    unset. *)
Theorem series_attrs_key_values (item s sk : xval) (vs : list xval)
  (cvs : list (string * string)) :
  getitem item "Series" = Ok s ->
  getitem s "SeriesKey" = Ok sk ->
  getitem sk "Value" = Ok (XList vs) ->
  Forall2 key_value_of vs cvs ->
  exists attrs,
    series_attrs to_concept_id item = Ok attrs
    /\ dict_get attrs "key"
       = option_map to_concept_id (last_value "EDULIT_IND" cvs)
    /\ dict_get attrs "location"
       = option_map to_concept_id (last_value "LOCATION" cvs).
Proof.
  intros Hs Hsk Hv Hall. unfold series_attrs.
  rewrite Hs. cbn [bind]. rewrite Hsk. cbn [bind]. rewrite Hv.
  cbn [bind iter].
  exact (key_loop vs cvs Hall [] None None eq_refl eq_refl).
Qed.

(** X5: a series whose key has no value with the concept [EDULIT_IND], or
    none with the concept [LOCATION], makes the reader raise [KeyError]
    when it looks the attribute up (lines 78-79), after its observations
    were read; no table is returned and the store is left as it was. *)
Theorem series_without_key_raises (pre post : list xval) (item s sk : xval)
  (vs : list xval) (cvs : list (string * string)) (ser : series)
  (h : store) :
  getitem item "Series" = Ok s ->
  getitem s "SeriesKey" = Ok sk ->
  getitem sk "Value" = Ok (XList vs) ->
  Forall2 key_value_of vs cvs ->
  series_obs item = Ok ser ->
  last_value "EDULIT_IND" cvs = None \/ last_value "LOCATION" cvs = None ->
  _read_data to_concept_id (pre ++ item :: post) h
  = (match foldM (read_series to_concept_id) [] pre with
     | Ok _ => Raise KeyError
     | Raise e => Raise e
     end, h).
Proof.
  intros Hs Hsk Hv Hall Hobs Hnone.
  destruct (key_loop vs cvs Hall [] None None eq_refl eq_refl)
    as (attrs & Hfold & Hkey & Hloc).
  assert (Hattrs : series_attrs to_concept_id item = Ok attrs).
  { unfold series_attrs. rewrite Hs. cbn [bind]. rewrite Hsk. cbn [bind].
    rewrite Hv. exact Hfold. }
  change (last_value "EDULIT_IND" cvs)
    with (fold_left (pick "EDULIT_IND") cvs None) in Hnone.
  change (last_value "LOCATION" cvs)
    with (fold_left (pick "LOCATION") cvs None) in Hnone.
  unfold _read_data, bindM, lift. rewrite foldM_app.
  destruct (foldM (read_series to_concept_id) [] pre) as [d|e];
    cbn [bind foldM]; [|reflexivity].
  unfold read_series at 1. rewrite Hattrs, Hobs. cbn [bind].
  unfold insert_series, dict_getitem. rewrite Hkey, Hloc.
  destruct (fold_left (pick "EDULIT_IND") cvs None) as [k|];
    cbn [option_map bind]; [|reflexivity].
  destruct Hnone as [Hnone | Hnone]; [discriminate Hnone|].
  rewrite Hnone. cbn [option_map bind].
  destruct (negb (dict_mem d (to_concept_id k))); reflexivity.
Qed.

End SeriesKey.

(** ** The mapping and the tables of the reader *)

Lemma dict_set_new {V : Type} (d : dict V) (k : string) (v : V) :
  dict_get d k = None -> dict_set d k v = d ++ [(k, v)].
Proof.
  induction d as [|[k' v'] d IH]; cbn; [reflexivity|].
  destruct (String.eqb k' k); [discriminate|].
  intros H. rewrite (IH H). reflexivity.
Qed.

Lemma existsb_eqb_In (a : string) (l : list string) :
  existsb (String.eqb a) l = true <-> In a l.
Proof.
  rewrite existsb_exists. split.
  - intros (x & Hx & E). apply String.eqb_eq in E. subst x. exact Hx.
  - intros H. exists a. split; [exact H | apply String.eqb_refl].
Qed.

Lemma dict_get_map {V : Type} (f : string -> V) (ks : list string)
  (k : string) :
  dict_get (map (fun k => (k, f k)) ks) k
  = if existsb (String.eqb k) ks then Some (f k) else None.
Proof.
  induction ks as [|a ks IH]; cbn; [reflexivity|].
  rewrite (String.eqb_sym k a).
  destruct (String.eqb a k) eqn:E; cbn; [|exact IH].
  apply String.eqb_eq in E. subst a. reflexivity.
Qed.

Lemma dict_set_map {V : Type} (f : string -> V) (ks : list string)
  (k : string) (v : V) :
  NoDup ks -> In k ks ->
  dict_set (map (fun k => (k, f k)) ks) k v
  = map (fun a => (a, if String.eqb a k then v else f a)) ks.
Proof.
  induction 1 as [|a ks Hnotin _ IH]; intros Hin; [destruct Hin|].
  cbn. destruct (String.eqb a k) eqn:E.
  - apply String.eqb_eq in E. subst a. f_equal.
    apply map_ext_in. intros x Hx.
    destruct (String.eqb x k) eqn:E'; [|reflexivity].
    apply String.eqb_eq in E'. subst x. contradiction.
  - f_equal. apply IH. destruct Hin as [-> | Hin]; [|exact Hin].
    rewrite String.eqb_refl in E. discriminate E.
Qed.

Lemma firsts_In (l seen : list string) (x : string) :
  In x (firsts seen l) <-> In x l /\ ~ In x seen.
Proof.
  revert seen; induction l as [|a l IH]; intros seen; cbn.
  - tauto.
  - destruct (existsb (String.eqb a) seen) eqn:E.
    + apply existsb_eqb_In in E. rewrite IH. split.
      * intros [H1 H2]. auto.
      * intros [[-> | H1] H2]; [contradiction | auto].
    + assert (Ha : ~ In a seen).
      { intros H. apply existsb_eqb_In in H. congruence. }
      cbn. rewrite IH. cbn. split.
      * intros [<- | [H1 H2]]; [auto|]. split; [auto|]. intros H. apply H2. auto.
      * intros [[-> | H1] H2]; [auto|].
        destruct (string_dec a x) as [-> | Hne]; [auto|].
        right. split; [exact H1|]. intros [-> | H]; contradiction.
Qed.

Lemma firsts_NoDup (l seen : list string) : NoDup (firsts seen l).
Proof.
  revert seen; induction l as [|a l IH]; intros seen; cbn; [constructor|].
  destruct (existsb (String.eqb a) seen); [apply IH|].
  constructor; [|apply IH]. rewrite firsts_In. cbn. tauto.
Qed.

Lemma firsts_snoc (l seen : list string) (a : string) :
  firsts seen (l ++ [a])
  = if existsb (String.eqb a) seen || existsb (String.eqb a) l
    then firsts seen l else firsts seen l ++ [a].
Proof.
  revert seen; induction l as [|b l IH]; intros seen; cbn.
  - rewrite orb_false_r. destruct (existsb (String.eqb a) seen); reflexivity.
  - destruct (existsb (String.eqb b) seen) eqn:E.
    + rewrite IH.
      destruct (String.eqb a b) eqn:Eab; [|reflexivity].
      apply String.eqb_eq in Eab. subst b. rewrite E. reflexivity.
    + rewrite IH. cbn. rewrite (String.eqb_sym a b).
      destruct (String.eqb b a) eqn:Eba; cbn.
      * rewrite orb_true_r. reflexivity.
      * destruct (existsb (String.eqb a) seen || existsb (String.eqb a) l);
          reflexivity.
Qed.

Lemma of_key_snoc (k : string) (ts : list reading) (t : reading) :
  of_key k (ts ++ [t])
  = of_key k ts ++ (if String.eqb (r_key t) k then [t] else []).
Proof.
  unfold of_key. rewrite filter_app. cbn.
  destruct (String.eqb (r_key t) k); reflexivity.
Qed.

Lemma of_key_nil (k : string) (ts : list reading) :
  ~ In k (map r_key ts) -> of_key k ts = [].
Proof.
  intros H. unfold of_key. induction ts as [|t ts IH]; [reflexivity|].
  cbn. destruct (String.eqb (r_key t) k) eqn:E.
  - apply String.eqb_eq in E. elim H. left. exact E.
  - apply IH. intros Hin. apply H. right. exact Hin.
Qed.

Lemma of_key_not_nil (k : string) (ts : list reading) :
  In k (map r_key ts) -> of_key k ts <> [].
Proof.
  intros H E. apply in_map_iff in H as (t & Hk & Ht).
  assert (Hin : In t (of_key k ts)).
  { apply filter_In. split; [exact Ht|]. rewrite Hk. apply String.eqb_refl. }
  rewrite E in Hin. destruct Hin.
Qed.

Section ReaderTables.

Variable to_concept_id : string -> string.

Let read := read_series to_concept_id.

Lemma dict_mem_pairs (ts : list reading) (k l : string) :
  ~ In (k, l) (map r_pair ts) ->
  dict_get (map (fun t => (r_location t, r_series t)) (of_key k ts)) l = None.
Proof.
  intros H. induction ts as [|t ts IH]; [reflexivity|].
  cbn [of_key filter]. fold (of_key k ts).
  assert (Hts : ~ In (k, l) (map r_pair ts)) by (intros Hin; apply H; right; exact Hin).
  destruct (String.eqb (r_key t) k) eqn:E; [|apply IH, Hts].
  cbn. destruct (String.eqb (r_location t) l) eqn:El; [|apply IH, Hts].
  apply String.eqb_eq in E, El. elim H. left. unfold r_pair. congruence.
Qed.

(** One step of the loop of lines 53-83 on the mapping of the series
    before. *)
Lemma read_series_grouped (item : xval) (t : reading) (ts : list reading) :
  reads to_concept_id item t ->
  ~ In (r_pair t) (map r_pair ts) ->
  read (grouped ts) item = Ok (grouped (ts ++ [t])).
Proof.
  intros (attrs & Hattrs & Hobs & Hkey & Hloc) Hnew.
  unfold read, read_series. rewrite Hattrs, Hobs. cbn [bind].
  unfold insert_series, dict_getitem. rewrite Hkey, Hloc. cbn [bind].
  unfold dict_mem at 1. unfold grouped at 1 2. rewrite dict_get_map.
  unfold grouped. rewrite map_app. cbn [map]. rewrite firsts_snoc. cbn [existsb orb].
  destruct (existsb (String.eqb (r_key t)) (firsts [] (map r_key ts))) eqn:Ein.
  - assert (Hin : In (r_key t) (map r_key ts)).
    { apply existsb_eqb_In in Ein. apply firsts_In in Ein. tauto. }
    assert (Hin' : existsb (String.eqb (r_key t)) (map r_key ts) = true)
      by (apply existsb_eqb_In; exact Hin).
    rewrite Hin'. cbn [negb bind].
    rewrite dict_get_map, Ein. cbn [bind]. unfold dict_mem.
    rewrite (dict_mem_pairs ts (r_key t) (r_location t) Hnew).
    rewrite (dict_set_new _ _ _ (dict_mem_pairs ts (r_key t) (r_location t) Hnew)).
    rewrite dict_set_map;
      [|apply firsts_NoDup | apply existsb_eqb_In; exact Ein].
    f_equal. apply map_ext. intros k. f_equal.
    rewrite of_key_snoc, (String.eqb_sym k (r_key t)).
    destruct (String.eqb (r_key t) k) eqn:E.
    + apply String.eqb_eq in E. subst k. rewrite map_app. reflexivity.
    + rewrite app_nil_r. reflexivity.
  - assert (Hnot : ~ In (r_key t) (map r_key ts)).
    { intros H. assert (Hf : In (r_key t) (firsts [] (map r_key ts)))
        by (apply firsts_In; split; [exact H | intros []]).
      apply existsb_eqb_In in Hf. congruence. }
    assert (Hnot' : existsb (String.eqb (r_key t)) (map r_key ts) = false).
    { destruct (existsb (String.eqb (r_key t)) (map r_key ts)) eqn:E;
        [|reflexivity]. apply existsb_eqb_In in E. contradiction. }
    rewrite Hnot'. cbn [negb bind].
    rewrite dict_set_new.
    2:{ rewrite dict_get_map, Ein. reflexivity. }
    rewrite map_app. cbn [map]. f_equal. f_equal.
    + apply map_ext_in. intros k Hk. f_equal.
      rewrite of_key_snoc.
      destruct (String.eqb (r_key t) k) eqn:E; [|rewrite app_nil_r; reflexivity].
      apply String.eqb_eq in E. subst k.
      apply firsts_In in Hk. tauto.
    + rewrite of_key_snoc, String.eqb_refl, (of_key_nil _ _ Hnot). reflexivity.
Qed.

Lemma fold_grouped (items : list xval) (ts : list reading) :
  Forall2 (reads to_concept_id) items ts ->
  forall ts0,
    NoDup (map r_pair (ts0 ++ ts)) ->
    foldM read (grouped ts0) items = Ok (grouped (ts0 ++ ts)).
Proof.
  induction 1 as [|item t items ts Hitem _ IH]; intros ts0 Hnd.
  - rewrite app_nil_r. reflexivity.
  - cbn [foldM]. rewrite (read_series_grouped item t ts0 Hitem).
    + cbn [bind]. rewrite (IH (ts0 ++ [t])); rewrite <- app_assoc; [reflexivity|].
      exact Hnd.
    + rewrite map_app in Hnd. cbn [map] in Hnd.
      apply NoDup_remove_2 in Hnd. intros H. apply Hnd.
      apply in_or_app. left. exact H.
Qed.

(** X6: over a data file whose series are all readable and have pairwise
    different (indicator, location) pairs, the loop of lines 53-83 ends
    with the indicators in the order of their first series, each with the
    (location, series) pairs of its series in document order. *)
Theorem read_series_groups (items : list xval) (ts : list reading) :
  Forall2 (reads to_concept_id) items ts ->
  NoDup (map r_pair ts) ->
  foldM (read_series to_concept_id) [] items = Ok (grouped ts).
Proof.
  intros Hall Hnd. exact (fold_grouped items ts Hall [] Hnd).
Qed.

End ReaderTables.

Lemma replace_nth_snoc {A : Type} (h : list A) (x y : A) :
  replace_nth (length h) x (h ++ [y]) = h ++ [x].
Proof. induction h as [|a h IH]; cbn; [reflexivity | rewrite IH; reflexivity]. Qed.

Lemma forM_load (fs h : store) :
  forM load (seq (length h) (length fs)) (h ++ fs) = (Ok fs, h ++ fs).
Proof.
  revert h; induction fs as [|f fs IH]; intros h; [reflexivity|].
  cbn [length seq forM].
  assert (Hload : load (length h) (h ++ f :: fs) = (Ok f, h ++ f :: fs)).
  { unfold load. rewrite nth_error_app2, Nat.sub_diag; [reflexivity | lia]. }
  rewrite (bindM_ok _ _ _ _ _ Hload).
  assert (Hrest : forM load (seq (S (length h)) (length fs)) (h ++ f :: fs)
                  = (Ok fs, h ++ f :: fs)).
  { specialize (IH (h ++ [f])). rewrite length_app in IH. cbn [length] in IH.
    rewrite Nat.add_1_r, <- app_assoc in IH. exact IH. }
  rewrite (bindM_ok _ _ _ _ _ Hrest). reflexivity.
Qed.

Lemma concat_frames_run (fs h : store) (df : DataFrame nat) :
  pd_concat fs = Ok df ->
  concat_frames (seq (length h) (length fs)) (h ++ fs)
  = (Ok (length (h ++ fs)), (h ++ fs) ++ [df]).
Proof.
  intros Hconcat. unfold concat_frames.
  rewrite (bindM_ok _ _ _ _ _ (forM_load fs h)).
  unfold bindM, lift, alloc. rewrite Hconcat. reflexivity.
Qed.

Section Tables.

(** The frame of one series of the indicator [k] (lines 89-90). *)
Let frame (k : string) (ls : string * series) : DataFrame nat :=
  mkDataFrame None ["time"; k; "location"]
    (number (map (fun tv => [CObj (fst tv); CObj (snd tv); CText (fst ls)])
               (snd ls))).

Lemma series_frame_run (k : string) (ls : string * series) (h : store) :
  k <> "location" ->
  series_frame k ls h = (Ok (length h), h ++ [frame k ls]).
Proof.
  intros Hk. unfold series_frame, bindM, alloc, modify, ret.
  rewrite nth_error_snoc, replace_nth_snoc. do 2 f_equal.
  unfold setitem_scalar, pd_DataFrame. cbn [columns col_index].
  apply String.eqb_neq in Hk. rewrite Hk.
  change (String.eqb "time" "location") with false. cbn [option_map].
  unfold map_rows, frame. cbn [rows index_name app]. f_equal.
  rewrite (number_map (fun r : list cell => r ++ [CText (fst ls)])), map_map.
  reflexivity.
Qed.

Lemma forM_series_frame (k : string) (v : dict series) (h : store) :
  k <> "location" ->
  forM (series_frame k) v h
  = (Ok (seq (length h) (length v)), h ++ map (frame k) v).
Proof.
  intros Hk. revert h; induction v as [|ls v IH]; intros h.
  - cbn. rewrite app_nil_r. reflexivity.
  - cbn [forM length seq map].
    rewrite (bindM_ok _ _ _ _ _ (series_frame_run k ls h Hk)).
    assert (Hrest : forM (series_frame k) v (h ++ [frame k ls])
                    = (Ok (seq (S (length h)) (length v)),
                       h ++ frame k ls :: map (frame k) v)).
    { rewrite IH, length_app. cbn [length].
      rewrite Nat.add_1_r, <- app_assoc. reflexivity. }
    rewrite (bindM_ok _ _ _ _ _ Hrest). reflexivity.
Qed.

Lemma flat_map_frames (k : string) (ts : list reading) :
  flat_map (fun g : DataFrame nat => map snd (rows g))
    (map (frame k) (map (fun t => (r_location t, r_series t)) ts))
  = flat_map (fun t => map (fun tv => [CObj (fst tv); CObj (snd tv);
                                       CText (r_location t)])
                         (r_series t)) ts.
Proof.
  induction ts as [|t ts IH]; [reflexivity|].
  cbn [map flat_map]. rewrite IH. f_equal.
  unfold frame. cbn [rows fst snd]. apply number_snd.
Qed.

(** Lines 87-93 for one indicator: the frames of its series are made, and
    then its table. *)
Lemma indicator_table_run (k : string) (ts : list reading) (h : store) :
  k <> "location" ->
  of_key k ts <> [] ->
  exists fs,
    (to_concat <~ forM (series_frame k)
                    (map (fun t => (r_location t, r_series t)) (of_key k ts)) ;;
     df <~ concat_frames to_concat ;;
     ret (k, df)) h
    = (Ok (k, length (h ++ fs)), (h ++ fs) ++ [table_of k ts]).
Proof.
  intros Hk Hne.
  set (v := map (fun t => (r_location t, r_series t)) (of_key k ts)).
  exists (map (frame k) v).
  rewrite (bindM_ok _ _ _ _ _ (forM_series_frame k v h Hk)).
  assert (Hconcat : pd_concat (map (frame k) v) = Ok (table_of k ts)).
  { unfold pd_concat, table_of, pd_DataFrame.
    unfold v at 2. rewrite flat_map_frames.
    destruct (of_key k ts) as [|t ts'] eqn:E; [contradiction|].
    reflexivity. }
  rewrite <- (length_map (frame k) v).
  rewrite (bindM_ok _ _ _ _ _
             (concat_frames_run (map (frame k) v) h (table_of k ts) Hconcat)).
  reflexivity.
Qed.

Variable to_concept_id : string -> string.

Lemma tables_run (ts : list reading) (ks : list string) :
  (forall k, In k ks -> k <> "location" /\ In k (map r_key ts)) ->
  forall h,
    exists data h',
      forM (fun kv : string * dict series =>
              to_concat <~ forM (series_frame (fst kv)) (snd kv) ;;
              df <~ concat_frames to_concat ;;
              ret (fst kv, df))
        (map (fun k => (k, map (fun t => (r_location t, r_series t))
                             (of_key k ts))) ks) h
      = (Ok data, h')
      /\ dict_keys data = ks
      /\ (exists t, h' = h ++ t)
      /\ Forall (fun kr => nth_error h' (snd kr) = Some (table_of (fst kr) ts))
           data.
Proof.
  induction ks as [|k ks IH]; intros Hks h.
  - exists [], h. cbn. repeat split; [exists []; rewrite app_nil_r; reflexivity|].
    constructor.
  - destruct (Hks k (or_introl eq_refl)) as [Hk Hin].
    destruct (indicator_table_run k ts h Hk (of_key_not_nil k ts Hin))
      as [fs Hrun].
    destruct (IH (fun k' H' => Hks k' (or_intror H'))
                ((h ++ fs) ++ [table_of k ts]))
      as (data & h' & Hrest & Hkeys & [t Ht] & Hall).
    exists ((k, length (h ++ fs)) :: data), h'.
    split; [|split; [|split]].
    + cbn [map forM fst snd].
      rewrite (bindM_ok _ _ _ _ _ Hrun).
      rewrite (bindM_ok _ _ _ _ _ Hrest). reflexivity.
    + unfold dict_keys in *. cbn [map fst]. rewrite Hkeys. reflexivity.
    + exists (fs ++ [table_of k ts] ++ t). rewrite Ht, <- !app_assoc. reflexivity.
    + constructor; [|exact Hall]. cbn [fst snd].
      rewrite Ht, nth_error_app1; [apply nth_error_snoc|].
      rewrite (length_app (h ++ fs)). cbn [length]. lia.
Qed.

Lemma read_data_run (items : list xval) (ts : list reading) (h : store) :
  Forall2 (reads to_concept_id) items ts ->
  NoDup (map r_pair ts) ->
  Forall (fun t => r_key t <> "location") ts ->
  exists data h',
    _read_data to_concept_id items h = (Ok data, h')
    /\ dict_keys data = firsts [] (map r_key ts)
    /\ (exists t, h' = h ++ t)
    /\ Forall (fun kr => nth_error h' (snd kr) = Some (table_of (fst kr) ts))
         data.
Proof.
  intros Hall Hnd Hloc.
  pose proof (fold_grouped to_concept_id items ts Hall [] Hnd) as Hfold.
  change (grouped []) with (@nil (string * dict series)) in Hfold.
  cbn [app] in Hfold.
  unfold _read_data, bindM at 1, lift. rewrite Hfold.
  unfold grouped. apply tables_run.
  intros k Hk. apply firsts_In in Hk as [Hk _]. split; [|exact Hk].
  apply in_map_iff in Hk as (t & <- & Ht).
  rewrite Forall_forall in Hloc. apply Hloc, Ht.
Qed.

(** X7: over a data file whose series are all readable, have pairwise
    different (indicator, location) pairs and have no indicator with the
    canonical id [location], the reader returns a mapping whose keys are
    the indicators in the order of their first series; the table of each
    is under the columns (time, indicator, location) and holds the
    observations of the series of the indicator, series after series in
    document order, under a new index from 0.  The frames the store had
    before stay as they were. *)
Theorem read_data_tables (items : list xval) (ts : list reading) (h : store) :
  Forall2 (reads to_concept_id) items ts ->
  NoDup (map r_pair ts) ->
  Forall (fun t => r_key t <> "location") ts ->
  exists data h',
    _read_data to_concept_id items h = (Ok data, h')
    /\ dict_keys data = firsts [] (map r_key ts)
    /\ (exists t, h' = h ++ t)
    /\ Forall (fun kr => nth_error h' (snd kr) = Some (table_of (fst kr) ts))
         data.
Proof.
  intros Hall Hnd Hloc.
  destruct (read_data_run items ts h Hall Hnd Hloc)
    as (data & h' & Hrun & Hkeys & Hext & Htables).
  exists data, h'. auto.
Qed.

(** X8: for the indicator whose canonical id is [location], the
    assignment of the location column (line 90) overwrites the column of
    the values: the frame of the series has the columns (time, location)
    and the observation values are gone. *)
Theorem location_indicator_overwritten (ls : string * series) (h : store) :
  series_frame "location" ls h
  = (Ok (length h),
     h ++ [mkDataFrame None ["time"; "location"]
             (number (map (fun tv => [CObj (fst tv); CText (fst ls)])
                        (snd ls)))]).
Proof.
  unfold series_frame, bindM, alloc, modify, ret.
  rewrite nth_error_snoc, replace_nth_snoc. do 2 f_equal.
  unfold setitem_scalar, pd_DataFrame. cbn [columns].
  change (col_index ["time"; "location"] "location") with (Some 1).
  unfold map_rows. cbn [rows index_name columns]. f_equal.
  rewrite (number_map (fun r : list cell => replace_nth 1 (CText (fst ls)) r)),
    map_map.
  reflexivity.
Qed.

(** The table of an indicator is an indicator table when the indicator is
    neither [location] nor [time] and the times are text or missing. *)
Lemma table_of_indicator_table (k : string) (ts : list reading) :
  k <> "location" -> k <> "time" ->
  Forall (fun t => Forall (fun tv => sortable (CObj (fst tv)) = true)
                     (r_series t)) ts ->
  indicator_table k (table_of k ts) = true.
Proof.
  intros Hl Ht Htimes. apply String.eqb_neq in Hl, Ht.
  unfold indicator_table, table_of, pd_DataFrame. cbn [columns rows col_index].
  change (String.eqb "time" "location") with false.
  change (String.eqb "time" "time") with true.
  change (String.eqb "location" "location") with true.
  change (String.eqb "location" "time") with false.
  rewrite Hl, Ht, (String.eqb_sym "time" k), Ht, String.eqb_refl.
  cbn [option_map distinct existsb orb negb andb].
  rewrite (String.eqb_sym "time" k), Ht, Hl. cbn [orb negb andb].
  apply forallb_forall. intros [i r] Hin.
  apply (in_map snd) in Hin. rewrite number_snd in Hin. cbn [snd] in *.
  apply in_flat_map in Hin as (t & Ht' & Hr).
  apply in_map_iff in Hr as (tv & <- & Htv).
  cbn [length cell_at nth Nat.eqb].
  unfold of_key in Ht'. apply filter_In in Ht' as [Ht' _].
  rewrite Forall_forall in Htimes. specialize (Htimes t Ht').
  rewrite Forall_forall in Htimes. rewrite (Htimes tv Htv). reflexivity.
Qed.

(** X9: the reader and the generator compose.  Over a data file whose
    series are all readable, with pairwise different (indicator,
    location) pairs, no indicator with the canonical id [location] or
    [time], and times that are text or missing, the generator consumed
    over the mapping of the reader yields, for the indicators in the order
    of their first series, the datapoints table of the table the reader
    built. *)
Theorem read_then_datapoints (items : list xval) (ts : list reading)
  (h : store) :
  Forall2 (reads to_concept_id) items ts ->
  NoDup (map r_pair ts) ->
  Forall (fun t => r_key t <> "location" /\ r_key t <> "time") ts ->
  Forall (fun t => Forall (fun tv => sortable (CObj (fst tv)) = true)
                     (r_series t)) ts ->
  exists data h1 out h2,
    _read_data to_concept_id items h = (Ok data, h1)
    /\ consume (extract_datapoints data) h1 = (Ok out, h2)
    /\ map fst out = firsts [] (map r_key ts)
    /\ Forall (fun kr =>
                 exists df',
                   nth_error h2 (snd kr) = Some df'
                   /\ datapoints_table (fst kr) (table_of (fst kr) ts) df')
         out.
Proof.
  intros Hall Hnd Hkeys Htimes.
  destruct (read_data_run items ts h Hall Hnd) as
    (data & h1 & Hrun & Hdk & _ & Htables).
  { apply Forall_forall. intros t Ht. rewrite Forall_forall in Hkeys.
    apply (Hkeys t Ht). }
  assert (Hin_keys : forall kr, In kr data ->
            fst kr <> "location" /\ fst kr <> "time").
  { intros kr Hkr. apply (in_map fst) in Hkr. fold (dict_keys data) in Hkr.
    rewrite Hdk in Hkr. apply firsts_In in Hkr as [Hkr _].
    apply in_map_iff in Hkr as (t & <- & Ht).
    rewrite Forall_forall in Hkeys. apply (Hkeys t Ht). }
  destruct (extract_datapoints_from data h1) with (h := h1)
    as (out & h2 & Hcons & Hout).
  { apply Forall_forall. intros kr Hkr. exists (table_of (fst kr) ts).
    rewrite Forall_forall in Htables. split; [apply Htables, Hkr|].
    destruct (Hin_keys kr Hkr) as [Hl Ht].
    apply table_of_indicator_table; assumption. }
  { exists []. rewrite app_nil_r. reflexivity. }
  exists data, h1, out, h2. split; [exact Hrun|]. split; [exact Hcons|].
  rewrite Forall_forall in Htables.
  assert (Hfst : map fst out = map fst data /\
                 Forall (fun kr => exists df',
                           nth_error h2 (snd kr) = Some df'
                           /\ datapoints_table (fst kr) (table_of (fst kr) ts) df')
                   out).
  { clear Hcons Hrun Hdk Hin_keys.
    induction Hout as [|kv kr data out (Hk & df & df' & Hdf & Hdf' & Hspec) _ IH].
    - split; constructor.
    - destruct IH as [IH1 IH2].
      { intros x Hx. apply Htables. right. exact Hx. }
      split; [cbn [map]; f_equal; [exact Hk | exact IH1]|].
      constructor; [|exact IH2].
      exists df'. split; [exact Hdf'|].
      rewrite (Htables kv (or_introl eq_refl)) in Hdf. injection Hdf as <-.
      rewrite Hk. exact Hspec. }
  destruct Hfst as [Hf1 Hf2]. split; [|exact Hf2].
  rewrite Hf1. exact Hdk.
Qed.

End Tables.

(** ** The continuous concepts when canonical ids collide *)

Lemma filter_disjoint_perm {A : Type} (p q : A -> bool) (l : list A) :
  (forall x, In x l -> p x = true -> q x = false) ->
  Permutation (filter (fun x => p x || q x) l) (filter p l ++ filter q l).
Proof.
  induction l as [|a l IH]; intros H; [reflexivity|].
  assert (IH' := IH (fun x Hx => H x (or_intror Hx))).
  cbn [filter]. destruct (p a) eqn:Ep; cbn [orb].
  - rewrite (H a (or_introl eq_refl) Ep). cbn [app]. constructor. exact IH'.
  - destruct (q a); [|exact IH'].
    rewrite IH'. apply Permutation_middle.
Qed.

Lemma flat_map_filter_perm {A : Type} (f : A -> string) (ks : list string)
  (l : list A) :
  NoDup ks ->
  Permutation (flat_map (fun k => filter (fun r => String.eqb (f r) k) l) ks)
    (filter (fun r => existsb (String.eqb (f r)) ks) l).
Proof.
  induction 1 as [|k ks Hnotin _ IH]; cbn [flat_map existsb].
  - induction l as [|a l IHl]; [reflexivity | exact IHl].
  - rewrite IH. symmetry. apply filter_disjoint_perm.
    intros x _ Hx. apply String.eqb_eq in Hx.
    destruct (existsb (String.eqb (f x)) ks) eqn:E; [|reflexivity].
    apply existsb_eqb_In in E. rewrite Hx in E. contradiction.
Qed.

Section CollidingConcepts.

Variable to_concept_id : string -> string.

Let cid := concept_id to_concept_id.
Let irow := index_row to_concept_id.

Lemma filter_label_rows (k : string) (recs : list concept) :
  filter (label_is k) (map irow recs)
  = map irow (filter (fun r => String.eqb (cid r) k) recs).
Proof.
  induction recs as [|r recs IH]; [reflexivity|].
  cbn [map filter]. change (label_is k (irow r)) with (String.eqb (cid r) k).
  destruct (String.eqb (cid r) k); cbn [map]; rewrite IH; reflexivity.
Qed.

Lemma loc_rows (ks : list string) (recs : list concept) :
  incl ks (map cid recs) ->
  mapM (fun l => match filter (label_is l) (map irow recs) with
                 | [] => Raise KeyError
                 | rs => Ok rs
                 end) ks
  = Ok (map (fun k => map irow (filter (fun r => String.eqb (cid r) k) recs))
          ks).
Proof.
  induction ks as [|k ks IH]; intros Hincl; [reflexivity|].
  cbn [mapM map]. rewrite IH by (intros x Hx; apply Hincl; right; exact Hx).
  rewrite filter_label_rows.
  destruct (filter (fun r => String.eqb (cid r) k) recs) as [|r rs] eqn:E.
  - exfalso. specialize (Hincl k (or_introl eq_refl)).
    apply in_map_iff in Hincl as (r & Hr & Hin).
    assert (H : In r (filter (fun r => String.eqb (cid r) k) recs)).
    { apply filter_In. split; [exact Hin|]. rewrite Hr. apply String.eqb_refl. }
    rewrite E in H. destruct H.
  - reflexivity.
Qed.

Lemma concat_map_rows {A B C : Type} (g : B -> C) (F : A -> list B)
  (l : list A) :
  List.concat (map (fun a => map g (F a)) l) = map g (flat_map F l).
Proof.
  induction l as [|a l IH]; [reflexivity|].
  cbn [map List.concat flat_map]. rewrite IH, map_app. reflexivity.
Qed.

(** Lines 129-134 on the rows that [.loc] selects. *)
Lemma concepts_sorted_rows (picked : list concept) :
  let sorted := map snd (isort keys_leb
                           (map (fun r => ([Some (cid r)], r)) picked)) in
  (conc <- sort_index
             (mkDataFrame (Some "concept") ["drillup"; "name"; "concept_type"]
                (map irow picked)) ;;
   conc <- select conc ["name"; "concept_type"] ;;
   reset_index conc)
  = Ok (pd_DataFrame (map (concept_row to_concept_id) sorted)
          ["concept"; "name"; "concept_type"])
  /\ Permutation sorted picked
  /\ Sorted (fun a b => String.leb a b = true) (map cid sorted).
Proof.
  set (keyed := map (fun r => ([Some (cid r)], r)) picked).
  cbv zeta. split; [|split].
  - unfold sort_index. cbn [rows index_name columns].
    rewrite (mapM_map _ (fun r : cell * list cell =>
               ([match fst r with
                 | CObj (XStr s) => Some s
                 | _ => None
                 end], r))).
    2:{ intros x Hx. apply in_map_iff in Hx as (r & <- & _). reflexivity. }
    cbn [bind]. rewrite map_map.
    match goal with
    | |- context [isort keys_leb ?l] =>
        replace l
          with (map (fun p : list (option string) * concept =>
                       (fst p, irow (snd p))) keyed)
          by (unfold keyed; rewrite map_map; reflexivity)
    end.
    rewrite (isort_payload _ _ keys_leb _ irow keyed).
    rewrite map_map. cbn [snd].
    unfold select. cbn [columns mapM]. eval_col. cbn [bind].
    unfold map_rows. cbn [rows index_name]. rewrite map_map.
    unfold reset_index. cbn [index_name columns rows].
    change (existsb (String.eqb "concept") ["name"; "concept_type"]) with false.
    cbv iota. rewrite map_map. unfold pd_DataFrame.
    rewrite (map_map snd). reflexivity.
  - rewrite (isort_perm _ _ keys_leb keyed). unfold keyed.
    rewrite map_map. cbn [snd]. rewrite map_id. reflexivity.
  - rewrite map_map. apply Sorted_map.
    apply (Sorted_weaken
             (fun x y => keys_leb (fst x) (fst y) = true)
             (fun x y => String.leb (cid (snd x)) (cid (snd y)) = true)
             (fun x => fst x = [Some (cid (snd x))])).
    + intros x y Hx Hy. rewrite Hx, Hy. unfold keys_leb, String.leb.
      cbn [keys_compare key_compare].
      destruct (String.compare (cid (snd x)) (cid (snd y))); auto.
    + apply Forall_forall. intros x Hx.
      apply (Permutation_in _ (isort_perm _ _ keys_leb keyed)) in Hx.
      unfold keyed in Hx. apply in_map_iff in Hx as (r & <- & _). reflexivity.
    + apply isort_sorted. apply keys_leb_total.
Qed.

Lemma concepts_run {V : Type} (data : dict V) (dsd inds : xval)
  (codes : list xval) (recs : list concept) :
  code_list dsd 0 = Ok inds ->
  getitem inds "Code" = Ok (XList codes) ->
  Forall2 indicator_code codes recs ->
  NoDup (dict_keys data) ->
  incl (dict_keys data) (map (concept_id to_concept_id) recs) ->
  exists out,
    extract_concepts_continuous to_concept_id data dsd
    = Ok (pd_DataFrame (map (concept_row to_concept_id) out)
            ["concept"; "name"; "concept_type"])
    /\ Permutation out
         (filter (fun r => existsb (String.eqb (concept_id to_concept_id r))
                             (dict_keys data)) recs)
    /\ Sorted (fun a b => String.leb a b = true)
         (map (concept_id to_concept_id) out).
Proof.
  intros Hinds Hcodes Hall Hnd Hincl.
  set (picked := flat_map (fun k => filter (fun r => String.eqb (cid r) k) recs)
                   (dict_keys data)).
  destruct (concepts_sorted_rows picked) as (Hrun & Hperm & Hsorted).
  cbv zeta in Hrun, Hperm, Hsorted.
  eexists. split; [|split; [|exact Hsorted]].
  - unfold extract_concepts_continuous.
    rewrite (concept_index_codes to_concept_id dsd inds codes recs
               Hinds Hcodes Hall).
    cbn [bind]. unfold loc. cbn [rows index_name columns].
    fold irow. rewrite (loc_rows (dict_keys data) recs Hincl). cbn [bind].
    rewrite (concat_map_rows irow). exact Hrun.
  - rewrite Hperm. unfold picked.
    apply (flat_map_filter_perm cid (dict_keys data) recs Hnd).
Qed.

(** X10: when the indicator codes are a list of code mappings and every
    key of the data mapping is the canonical id of one of them, the
    extractor returns a row for every code whose canonical id is a key of
    the mapping, also for each of several codes with one canonical id,
    and for no other code; the rows are in ascending order of the
    canonical id. *)
Theorem concepts_rows_of_data_keys {V : Type} (data : dict V)
  (dsd inds : xval) (codes : list xval) (recs : list concept) :
  code_list dsd 0 = Ok inds ->
  getitem inds "Code" = Ok (XList codes) ->
  Forall2 indicator_code codes recs ->
  NoDup (dict_keys data) ->
  incl (dict_keys data) (map (concept_id to_concept_id) recs) ->
  exists out,
    extract_concepts_continuous to_concept_id data dsd
    = Ok (pd_DataFrame (map (concept_row to_concept_id) out)
            ["concept"; "name"; "concept_type"])
    /\ Permutation out
         (filter (fun r => existsb (String.eqb (concept_id to_concept_id r))
                             (dict_keys data)) recs)
    /\ Sorted (fun a b => String.leb a b = true)
         (map (concept_id to_concept_id) out).
Proof.
  intros Hinds Hcodes Hall Hnd Hincl.
  destruct (concepts_run data dsd inds codes recs Hinds Hcodes Hall Hnd Hincl)
    as (out & Hrun & Hperm & Hsorted).
  exists out. auto.
Qed.

End CollidingConcepts.

(** ** The files of the run *)

Lemma list_ascii_of_string_app (s t : string) :
  list_ascii_of_string (s ++ t)
  = (list_ascii_of_string s ++ list_ascii_of_string t)%list.
Proof. induction s as [|c s IH]; cbn; [reflexivity | rewrite IH; reflexivity]. Qed.

Lemma append_inv_tail (s1 s2 t : string) :
  (s1 ++ t)%string = (s2 ++ t)%string -> s1 = s2.
Proof.
  intros H. apply (f_equal list_ascii_of_string) in H.
  rewrite !list_ascii_of_string_app in H. apply app_inv_tail in H.
  apply (f_equal string_of_list_ascii) in H.
  rewrite !string_of_list_ascii_of_string in H. exact H.
Qed.

Lemma datapoints_path (k : string) :
  os_path_join out_dir (datapoints_file k)
  = ("../../ddf--datapoints--" ++ k ++ "--by--location--time.csv")%string.
Proof. reflexivity. Qed.

(** X11: the datapoints of different indicators are written to different
    paths, and to none of the paths of the two concept files and the
    entity file: no write of a run replaces the file of another one. *)
Theorem written_paths_distinct (ks : list string) :
  NoDup ks ->
  NoDup ([os_path_join out_dir "ddf--concepts--continuous.csv";
          os_path_join out_dir "ddf--concepts--discrete.csv";
          os_path_join out_dir "ddf--entities--location.csv"]
         ++ map (fun k => os_path_join out_dir (datapoints_file k)) ks).
Proof.
  intros Hnd.
  assert (Hdp : NoDup (map (fun k => os_path_join out_dir (datapoints_file k)) ks)).
  { induction Hnd as [|k ks Hnotin _ IH]; cbn [map]; constructor; [|exact IH].
    intros Hin. apply in_map_iff in Hin as (k' & Heq & Hk').
    rewrite !datapoints_path in Heq. cbn in Heq.
    repeat (injection Heq as Heq).
    apply (append_inv_tail k' k "--by--location--time.csv") in Heq.
    subst k'. contradiction. }
  assert (Hfixed : forall p,
            In p (map (fun k => os_path_join out_dir (datapoints_file k)) ks) ->
            ~ In p [os_path_join out_dir "ddf--concepts--continuous.csv";
                    os_path_join out_dir "ddf--concepts--discrete.csv";
                    os_path_join out_dir "ddf--entities--location.csv"]).
  { intros p Hp. apply in_map_iff in Hp as (k & <- & _).
    rewrite datapoints_path. cbn.
    intros [H | [H | [H | []]]]; discriminate H. }
  cbn [app]. repeat constructor; try exact Hdp.
  - intros [H | [H | Hin]]; try discriminate H.
    exact (Hfixed _ Hin (or_introl eq_refl)).
  - intros [H | Hin]; try discriminate H.
    exact (Hfixed _ Hin (or_intror (or_introl eq_refl))).
  - intros Hin.
    exact (Hfixed _ Hin (or_intror (or_intror (or_introl eq_refl)))).
Qed.

Lemma to_csv_pd_DataFrame (rows : list (list cell)) (cols : list string) :
  to_csv (pd_DataFrame rows cols) = (cols, rows).
Proof. unfold to_csv, pd_DataFrame. cbn. rewrite number_snd. reflexivity. Qed.

(** The loop of lines 193-196 over indicator tables of the store. *)
Lemma write_datapoints_run (data : dict ref) (h0 : store) :
  Forall (fun kv => exists df, nth_error h0 (snd kv) = Some df
                               /\ indicator_table (fst kv) df = true) data ->
  forall h written,
    (exists t, h = h0 ++ t) ->
    exists outs,
      write_datapoints (extract_datapoints data) h written
      = (written ++ outs, Ok tt)
      /\ Forall2 (fun kv f =>
                    fst f = os_path_join out_dir (datapoints_file (fst kv))
                    /\ exists df df',
                         nth_error h0 (snd kv) = Some df
                         /\ datapoints_table (fst kv) df df'
                         /\ snd f = to_csv df') data outs.
Proof.
  induction 1 as [|[k r] data (df & Hr & Htable) _ IH]; intros h written [t Ht].
  - exists []. rewrite app_nil_r. split; [reflexivity | constructor].
  - cbn [fst snd] in *.
    assert (Hrh : nth_error h r = Some df).
    { rewrite Ht, nth_error_app1; [exact Hr|].
      apply nth_error_Some. congruence. }
    destruct (datapoints_run k r h df Hrh Htable)
      as (r' & h1 & df' & Hrun & Hr' & Hspec).
    destruct (extends_datapoints k r h) as [t1 Ht1].
    rewrite Hrun in Ht1. cbn [snd] in Ht1.
    destruct (IH h1 (written ++ [(os_path_join out_dir (datapoints_file k),
                                  to_csv df')]))
      as (outs & Hrest & Hall).
    { exists (t ++ t1). rewrite Ht1, Ht, app_assoc. reflexivity. }
    exists ((os_path_join out_dir (datapoints_file k), to_csv df') :: outs).
    split.
    + cbn [extract_datapoints map write_datapoints fst snd].
      rewrite Hrun, Hr'. fold (extract_datapoints data).
      rewrite Hrest, <- app_assoc. reflexivity.
    + constructor; [|exact Hall]. cbn [fst snd]. split; [reflexivity|].
      exists df, df'. auto.
Qed.

Section Run.

Variable to_concept_id : string -> string.
Variable create_index_file : files -> files.

Let cid := concept_id to_concept_id.

(** The reader's part of a run over a readable data file. *)
Lemma run_reader (items : list xval) (ts : list reading) :
  Forall2 (reads to_concept_id) items ts ->
  NoDup (map r_pair ts) ->
  Forall (fun t => r_key t <> "location") ts ->
  exists data h,
    _read_data to_concept_id items [] = (Ok data, h)
    /\ dict_keys data = firsts [] (map r_key ts)
    /\ Forall (fun kr => nth_error h (snd kr) = Some (table_of (fst kr) ts))
         data.
Proof.
  intros Hall Hnd Hloc.
  destruct (read_data_run to_concept_id items ts [] Hall Hnd Hloc)
    as (data & h & Hrun & Hkeys & _ & Htables).
  exists data, h. auto.
Qed.

(** X12: on a DSD whose two code lists are lists of readable codes, the
    locations with several descriptions each, and a data file of readable
    series with pairwise different (indicator, location) pairs, whose
    indicators are canonical ids of codes of the DSD and are neither
    [location] nor [time], and whose times are text or missing, the run
    ends without an exception after it wrote, in this order, the
    continuous concepts, the discrete concepts, the locations (one record
    per code, in the order of the code list) and, for every indicator in
    the order of its first series, its datapoints table; the index
    generator is called on these files last. *)
Theorem main_writes_all (dsd inds locs : xval) (codes lcodes : list xval)
  (recs : list concept) (lrecs : list (string * xval))
  (items : list xval) (ts : list reading) :
  code_list dsd 0 = Ok inds ->
  getitem inds "Code" = Ok (XList codes) ->
  Forall2 indicator_code codes recs ->
  code_list dsd 1 = Ok locs ->
  getitem locs "Code" = Ok (XList lcodes) ->
  Forall2 location_code lcodes lrecs ->
  Forall2 (reads to_concept_id) items ts ->
  NoDup (map r_pair ts) ->
  Forall (fun t => r_key t <> "location" /\ r_key t <> "time") ts ->
  Forall (fun t => Forall (fun tv => sortable (CObj (fst tv)) = true)
                     (r_series t)) ts ->
  incl (map r_key ts) (map (concept_id to_concept_id) recs) ->
  exists out dps,
    main to_concept_id create_index_file dsd items
    = (create_index_file
         ([(os_path_join out_dir "ddf--concepts--continuous.csv",
            (["concept"; "name"; "concept_type"],
             map (concept_row to_concept_id) out));
           (os_path_join out_dir "ddf--concepts--discrete.csv",
            to_csv extract_concepts_discrete);
           (os_path_join out_dir "ddf--entities--location.csv",
            (["location"; "name"],
             map (fun r => [CText (to_concept_id (fst r)); CObj (snd r)])
               lrecs))]
          ++ dps),
       Ok tt)
    /\ Permutation out
         (filter (fun r => existsb (String.eqb (concept_id to_concept_id r))
                             (firsts [] (map r_key ts))) recs)
    /\ Sorted (fun a b => String.leb a b = true)
         (map (concept_id to_concept_id) out)
    /\ Forall2 (fun k f =>
                  fst f = os_path_join out_dir (datapoints_file k)
                  /\ exists df',
                       datapoints_table k (table_of k ts) df'
                       /\ snd f = to_csv df')
         (firsts [] (map r_key ts)) dps.
Proof.
  intros Hinds Hcodes Hrecs Hlocs Hlcodes Hlrecs Hreads Hnd Hkeys Htimes Hincl.
  destruct (run_reader items ts Hreads Hnd) as (data & h & Hread & Hdk & Htables).
  { apply Forall_forall. intros t Ht. rewrite Forall_forall in Hkeys.
    apply (Hkeys t Ht). }
  destruct (concepts_run to_concept_id data dsd inds codes recs
              Hinds Hcodes Hrecs) as (out & Hconc & Hperm & Hsorted).
  { rewrite Hdk. apply firsts_NoDup. }
  { rewrite Hdk. intros k Hk. apply firsts_In in Hk as [Hk _].
    apply Hincl, Hk. }
  rewrite Forall_forall in Htables.
  destruct (write_datapoints_run data h) with
    (h := h)
    (written := [(os_path_join out_dir "ddf--concepts--continuous.csv",
                  (["concept"; "name"; "concept_type"],
                   map (concept_row to_concept_id) out));
                 (os_path_join out_dir "ddf--concepts--discrete.csv",
                  to_csv extract_concepts_discrete);
                 (os_path_join out_dir "ddf--entities--location.csv",
                  (["location"; "name"],
                   map (fun r => [CText (to_concept_id (fst r)); CObj (snd r)])
                     lrecs))])
    as (dps & Hwrite & Hdps).
  { apply Forall_forall. intros kr Hkr. exists (table_of (fst kr) ts).
    split; [apply Htables, Hkr|].
    assert (Hk : In (fst kr) (map r_key ts)).
    { apply (in_map fst) in Hkr.
      change (In (fst kr) (dict_keys data)) in Hkr.
      rewrite Hdk in Hkr. apply firsts_In in Hkr. tauto. }
    apply in_map_iff in Hk as (t & Hk & Ht).
    rewrite Forall_forall in Hkeys. destruct (Hkeys t Ht) as [Hl Htm].
    rewrite Hk in Hl, Htm. apply table_of_indicator_table; assumption. }
  { exists []. rewrite app_nil_r. reflexivity. }
  exists out, dps. split; [|split; [|split; [exact Hsorted|]]].
  - unfold main. rewrite Hread, Hconc.
    rewrite (entities_one_per_code to_concept_id dsd locs lcodes lrecs
               Hlocs Hlcodes Hlrecs).
    rewrite (to_csv_pd_DataFrame (map (concept_row to_concept_id) out)).
    rewrite (to_csv_pd_DataFrame
               (map (fun r => [CText (to_concept_id (fst r)); CObj (snd r)])
                  lrecs)).
    cbn [app]. cbn [app] in Hwrite.
    destruct (write_datapoints (extract_datapoints data) h _) as [w r].
    injection Hwrite as -> ->. reflexivity.
  - rewrite <- Hdk. exact Hperm.
  - rewrite <- Hdk. unfold dict_keys. clear Hwrite Hread Hconc Hdk Hperm.
    induction Hdps as [|kv f data dps (Hf & df & df' & Hdf & Hspec & Hcsv) _ IH];
      cbn [map]; constructor.
    + split; [exact Hf|]. exists df'. split; [|exact Hcsv].
      rewrite (Htables kv (or_introl eq_refl)) in Hdf. injection Hdf as <-.
      exact Hspec.
    + apply IH. intros x Hx. apply Htables. right. exact Hx.
Qed.

(** X13: when the locations of the DSD are a list of code mappings one of
    which has a single description, on a DSD and a data file that are
    otherwise as the extractors read them, the run ends in a lookup error
    after it wrote the two concept files and nothing else: no entity file
    and no datapoints file is written. *)
Theorem main_stops_at_locations (dsd inds locs : xval)
  (codes lcodes : list xval) (recs : list concept)
  (items : list xval) (ts : list reading) :
  code_list dsd 0 = Ok inds ->
  getitem inds "Code" = Ok (XList codes) ->
  Forall2 indicator_code codes recs ->
  code_list dsd 1 = Ok locs ->
  getitem locs "Code" = Ok (XList lcodes) ->
  forallb mapping_shaped lcodes = true ->
  existsb single_description lcodes = true ->
  Forall2 (reads to_concept_id) items ts ->
  NoDup (map r_pair ts) ->
  Forall (fun t => r_key t <> "location") ts ->
  incl (map r_key ts) (map (concept_id to_concept_id) recs) ->
  exists out e,
    main to_concept_id create_index_file dsd items
    = ([(os_path_join out_dir "ddf--concepts--continuous.csv",
         (["concept"; "name"; "concept_type"],
          map (concept_row to_concept_id) out));
        (os_path_join out_dir "ddf--concepts--discrete.csv",
         to_csv extract_concepts_discrete)],
       Raise e)
    /\ is_lookup_error e = true.
Proof.
  intros Hinds Hcodes Hrecs Hlocs Hlcodes Hshaped Hsingle Hreads Hnd Hkeys Hincl.
  destruct (run_reader items ts Hreads Hnd Hkeys)
    as (data & h & Hread & Hdk & _).
  destruct (concepts_run to_concept_id data dsd inds codes recs
              Hinds Hcodes Hrecs) as (out & Hconc & _).
  { rewrite Hdk. apply firsts_NoDup. }
  { rewrite Hdk. intros k Hk. apply firsts_In in Hk as [Hk _].
    apply Hincl, Hk. }
  destruct (mapM_raises cinfo (fun e => is_lookup_error e = true) lcodes)
    as (e & He & HP).
  { rewrite forallb_forall in Hshaped. apply Forall_forall.
    intros c Hc. apply cinfo_shaped, Hshaped, Hc. }
  { apply existsb_exists in Hsingle as (c & Hc & Hs).
    apply Exists_exists. exists c. split; [exact Hc|].
    apply cinfo_single, Hs. }
  exists out, e. split; [|exact HP].
  unfold main. rewrite Hread, Hconc. unfold extract_entities_location.
  rewrite Hlocs. cbn [bind]. rewrite Hlcodes. cbn [bind iter].
  rewrite He. cbn [bind].
  rewrite (to_csv_pd_DataFrame (map (concept_row to_concept_id) out)).
  reflexivity.
Qed.

End Run.

(** ** More edges of the extractors and the reader *)

Section Edges.

Variable to_concept_id : string -> string.

(** X14: when the location codes are a list of code mappings with a text
    value and several descriptions each, the extractor returns one
    (location, name) record per code, in the order of the code list: the
    location is the canonical id of the code and the name is the text of
    its first description.  (The data file is no argument of the
    extractor: a location without datapoints has its record.) *)
Theorem entities_records (dsd locs : xval) (codes : list xval)
  (recs : list (string * xval)) :
  code_list dsd 1 = Ok locs ->
  getitem locs "Code" = Ok (XList codes) ->
  Forall2 location_code codes recs ->
  extract_entities_location to_concept_id dsd
  = Ok (pd_DataFrame
          (map (fun r => [CText (to_concept_id (fst r)); CObj (snd r)]) recs)
          ["location"; "name"]).
Proof.
  intros Hlocs Hcodes Hall.
  exact (entities_one_per_code to_concept_id dsd locs codes recs
           Hlocs Hcodes Hall).
Qed.

(** X15: a series without an [Obs] child, whose key is read, makes the
    reader raise [KeyError] at line 71; no table is returned and the store
    is left as it was. *)
Theorem series_without_obs_raises (pre post : list xval) (item : xval)
  (items : list (string * xval)) (attrs : dict string) (h : store) :
  getitem item "Series" = Ok (XDict items) ->
  dict_get items "Obs" = None ->
  series_attrs to_concept_id item = Ok attrs ->
  _read_data to_concept_id (pre ++ item :: post) h
  = (match foldM (read_series to_concept_id) [] pre with
     | Ok _ => Raise KeyError
     | Raise e => Raise e
     end, h).
Proof.
  intros Hs Hobs Hattrs.
  unfold _read_data, bindM, lift. rewrite foldM_app.
  destruct (foldM (read_series to_concept_id) [] pre) as [d|e];
    cbn [bind foldM]; [|reflexivity].
  unfold read_series at 1. rewrite Hattrs. cbn [bind].
  unfold series_obs. rewrite Hs. cbn [bind getitem]. rewrite Hobs.
  reflexivity.
Qed.

End Edges.

Lemma datapoints_key_error (k : string) (r : ref) (h : store)
  (df : DataFrame nat) :
  nth_error h r = Some df ->
  col_index (columns df) k = None
  \/ col_index (columns df) "location" = None
  \/ col_index (columns df) "time" = None ->
  exists h', datapoints k r h = (Raise KeyError, h').
Proof.
  intros Hr Hmissing. unfold datapoints.
  rewrite (bindM_ok _ _ h (h ++ [dropna df]) (length h))
    by (apply (method_run r _ h df); auto).
  set (h1 := h ++ [dropna df]).
  rewrite (bindM_ok _ _ h1 h1 (dropna df))
    by (unfold load, h1; rewrite nth_error_snoc; reflexivity).
  unfold getcol at 1. cbn [dropna columns].
  destruct (col_index (columns df) k) as [ik|] eqn:Hk.
  2:{ eexists. reflexivity. }
  rewrite (bindM_ok _ _ h1 h1 (map (fun r0 : nat * list cell => cell_at (snd r0) ik)
                                  (rows (dropna df))))
    by reflexivity.
  set (df2 := getitem_mask (dropna df)
                (map (fun c => ne_str c "NaN")
                   (map (fun r0 : nat * list cell => cell_at (snd r0) ik)
                      (rows (dropna df))))).
  rewrite (bindM_ok _ _ h1 (h1 ++ [df2]) (length h1))
    by (apply (method_run _ _ h1 (dropna df));
        [apply nth_error_snoc | reflexivity]).
  assert (Hsel : select df2 ["location"; "time"; k] = Raise KeyError).
  { unfold select. cbn [df2 getitem_mask dropna columns mapM].
    destruct Hmissing as [H | [H | H]]; [congruence | |].
    - rewrite H. reflexivity.
    - rewrite H. destruct (col_index (columns df) "location"); reflexivity. }
  eexists. unfold bindM at 1, method, bindM, load, lift.
  rewrite nth_error_snoc, Hsel. reflexivity.
Qed.

Lemma consume_cons_raise {A : Type} (m : M A) (g : generator A)
  (h h1 : store) (a : A) (e : exn) :
  m h = (Ok a, h1) ->
  fst (consume g h1) = Raise e ->
  fst (consume (m :: g) h) = Raise e.
Proof.
  intros Hm Hg. cbn [consume]. unfold bindM. rewrite Hm.
  destruct (consume g h1) as [[out|e'] h2]; cbn [fst] in *;
    [discriminate Hg | exact Hg].
Qed.

(** X16: a table of the mapping that has no column for its indicator, or
    no [location] or [time] column, ends the generator with [KeyError]
    when its turn comes, after the indicator tables before it were
    yielded; what comes after it in the mapping is not looked at. *)
Theorem datapoints_missing_column (pre post : dict ref) (k : string)
  (r : ref) (df : DataFrame nat) (h : store) :
  Forall (fun kv => exists df, nth_error h (snd kv) = Some df
                               /\ indicator_table (fst kv) df = true) pre ->
  nth_error h r = Some df ->
  col_index (columns df) k = None
  \/ col_index (columns df) "location" = None
  \/ col_index (columns df) "time" = None ->
  fst (consume (extract_datapoints (pre ++ (k, r) :: post)) h)
  = Raise KeyError.
Proof.
  intros Hpre Hr Hmissing.
  assert (Hgen : forall h1, (exists t, h1 = h ++ t) ->
            fst (consume (extract_datapoints (pre ++ (k, r) :: post)) h1)
            = Raise KeyError).
  { induction Hpre as [|[k0 r0] pre (df0 & Hr0 & Ht0) _ IH]; intros h1 [t Ht].
    - cbn [app extract_datapoints map consume fst snd].
      assert (Hr1 : nth_error h1 r = Some df).
      { rewrite Ht, nth_error_app1; [exact Hr|].
        apply nth_error_Some. congruence. }
      destruct (datapoints_key_error k r h1 df Hr1 Hmissing) as [h' Hrun].
      unfold bindM at 1. rewrite Hrun. reflexivity.
    - cbn [fst snd] in *.
      assert (Hr1 : nth_error h1 r0 = Some df0).
      { rewrite Ht, nth_error_app1; [exact Hr0|].
        apply nth_error_Some. congruence. }
      destruct (datapoints_run k0 r0 h1 df0 Hr1 Ht0)
        as (r' & h2 & df' & Hrun & _ & _).
      destruct (extends_datapoints k0 r0 h1) as [t1 Ht1].
      rewrite Hrun in Ht1. cbn [snd] in Ht1.
      apply (consume_cons_raise (datapoints k0 r0)
               (extract_datapoints (pre ++ (k, r) :: post))
               h1 h2 (k0, r') KeyError Hrun).
      apply IH. exists (t ++ t1). rewrite Ht1, Ht, app_assoc. reflexivity. }
  apply Hgen. exists []. rewrite app_nil_r. reflexivity.
Qed.

(** * The statements on sample documents *)

Import Sample.

Lemma sample_read_data :
  _read_data DdfUtils.to_concept_id [usa_edu1; fra_edu1; usa_edu2] []
  = (Ok data, tables).
Proof. vm_compute. reflexivity. Qed.

Ltac series_tac :=
  do 2 eexists; repeat split; reflexivity.

Ltac indicator_tac :=
  do 2 eexists;
  split; [reflexivity|]; split; [reflexivity|]; split; [reflexivity|];
  split; [reflexivity|];
  cbn; first [reflexivity | eexists; split; reflexivity].

(** The data file with a second series for (edu1, fra). *)
Lemma duplicate_series_raises_witness :
  _read_data DdfUtils.to_concept_id
    ([usa_edu1] ++ fra_edu1 :: [usa_edu2] ++ fra_edu1_again :: []) []
  = (Raise AssertionError, []).
Proof.
  rewrite (duplicate_series_raises DdfUtils.to_concept_id
             [usa_edu1] [usa_edu2] [] fra_edu1 fra_edu1_again "edu1" "fra" []).
  - reflexivity.
  - series_tac.
  - series_tac.
Defined.

(** A series with one observation and a series with two. *)
Lemma series_obs_both_shapes_witness :
  series_obs usa_edu2 = Ok [(XStr "2001", XStr "7.5")]
  /\ series_obs usa_edu1
     = Ok [(XStr "2000", XStr "5.1"); (XStr "1999", XStr "NaN")].
Proof.
  split.
  - eapply (series_obs_both_shapes usa_edu2 _ [obs "2001" "7.5"]).
    + reflexivity.
    + reflexivity.
    + repeat constructor. eexists; split; reflexivity.
  - eapply (series_obs_both_shapes usa_edu1 _
              [obs "2000" "5.1"; obs "1999" "NaN"]).
    + reflexivity.
    + reflexivity.
    + repeat constructor; eexists; split; reflexivity.
Defined.

(** The data file followed by the series with one key value. *)
Lemma single_key_value_raises_witness :
  series_attrs DdfUtils.to_concept_id one_key_value = Raise TypeError
  /\ _read_data DdfUtils.to_concept_id
       ([usa_edu1; fra_edu1] ++ one_key_value :: [usa_edu2]) []
     = (Raise TypeError, []).
Proof.
  apply (single_key_value_raises DdfUtils.to_concept_id
           [usa_edu1; fra_edu1] [usa_edu2] one_key_value
           ("@concept", XStr "EDULIT_IND") [("@value", XStr "EDU1")] []).
  do 2 eexists. repeat split; reflexivity.
Defined.

(** Against C8 as it is written: a DSD whose only location code has a
    single description.  The loop runs over the keys of the code mapping,
    and the exception is a [TypeError], which is no lookup error. *)
Lemma single_location_type_error :
  (exists locs c,
     code_list dsd_one_location 1 = Ok locs
     /\ getitem locs "Code" = Ok c
     /\ single_description c = true)
  /\ ~ (exists e,
          extract_entities_location DdfUtils.to_concept_id dsd_one_location
          = Raise e
          /\ is_lookup_error e = true).
Proof.
  split.
  - do 2 eexists. repeat split; reflexivity.
  - intros (e & He & Hl).
    assert (H : extract_entities_location DdfUtils.to_concept_id
                  dsd_one_location = Raise TypeError) by reflexivity.
    rewrite H in He. injection He as <-. discriminate Hl.
Qed.

(** The DSD with two locations of one description each. *)
Lemma single_description_lookup_error_witness :
  exists e,
    extract_entities_location DdfUtils.to_concept_id dsd_en = Raise e
    /\ is_lookup_error e = true.
Proof.
  apply (single_description_lookup_error DdfUtils.to_concept_id dsd_en
           (code_list_of "CL_LOCATION" locations_en) locations_en);
    reflexivity.
Defined.

(** C6: on a DSD whose locations have one description each the extractor
    raises [KeyError] where the claim has it return one record per
    location, while [extract_concepts_continuous] reads the indicator of
    the same DSD that has one description. *)
Theorem entities_single_description :
  extract_entities_location DdfUtils.to_concept_id dsd_en = Raise KeyError
  /\ extract_concepts_continuous DdfUtils.to_concept_id [("edu2", 1)] dsd_en
     = Ok (pd_DataFrame
             [[CText "edu2"; CText "Literacy rate"; CText "measure"]]
             ["concept"; "name"; "concept_type"]).
Proof. split; reflexivity. Qed.

(** The DSD on the shape the extractor subscripts. *)
Lemma entities_one_per_code_sample :
  extract_entities_location DdfUtils.to_concept_id dsd
  = Ok (pd_DataFrame [[CText "usa"; CText "United States"];
                      [CText "fra"; CText "France"]]
          ["location"; "name"]).
Proof. reflexivity. Qed.

(** Against C3 as it is written: every indicator of the data mapping is in
    the first code list, and the table has two rows for the one
    indicator. *)
Lemma colliding_codes_two_rows :
  incl (dict_keys [("edu1", 0)])
    (map DdfUtils.to_concept_id ["EDU1"; "edu1"])
  /\ (exists df,
        extract_concepts_continuous DdfUtils.to_concept_id [("edu1", 0)]
          dsd_colliding = Ok df
        /\ map (fun r => cell_at (snd r) 0) (rows df)
           = [CText "edu1"; CText "edu1"])
  /\ ~ (exists out,
          extract_concepts_continuous DdfUtils.to_concept_id [("edu1", 0)]
            dsd_colliding
          = Ok (pd_DataFrame (map (concept_row DdfUtils.to_concept_id) out)
                  ["concept"; "name"; "concept_type"])
          /\ NoDup (map (concept_id DdfUtils.to_concept_id) out)).
Proof.
  split; [|split].
  - intros x [<- | []]. left. reflexivity.
  - eexists. split; reflexivity.
  - intros (out & He & Hnd).
    assert (H : first_cells (extract_concepts_continuous DdfUtils.to_concept_id
                             [("edu1", 0)] dsd_colliding)
                = [CText "edu1"; CText "edu1"]) by reflexivity.
    rewrite He in H. cbn [first_cells] in H. unfold pd_DataFrame in H.
    cbn [rows] in H.
    rewrite (number_map_snd (fun r : list cell => cell_at r 0)), map_map in H.
    destruct out as [|r1 [|r2 [|r3 out]]]; try discriminate H.
    cbn [map concept_row cell_at nth] in H, Hnd.
    injection H as E1 E2.
    inversion Hnd as [|? ? Hnotin _]; subst. apply Hnotin.
    left. congruence.
Qed.

(** The sample DSD and a data mapping with two of its indicators. *)
Lemma concepts_one_row_per_indicator_witness :
  exists out,
    extract_concepts_continuous DdfUtils.to_concept_id
      [("edu2", 0); ("a_b", 1)] dsd
    = Ok (pd_DataFrame (map (concept_row DdfUtils.to_concept_id) out)
            ["concept"; "name"; "concept_type"])
    /\ incl out indicator_concepts
    /\ Permutation (map (concept_id DdfUtils.to_concept_id) out)
         (dict_keys [("edu2", 0); ("a_b", 1)])
    /\ NoDup (map (concept_id DdfUtils.to_concept_id) out)
    /\ Sorted (fun a b => String.ltb a b = true)
         (map (concept_id DdfUtils.to_concept_id) out).
Proof.
  apply (concepts_one_row_per_indicator DdfUtils.to_concept_id
           [("edu2", 0); ("a_b", 1)] dsd
           (code_list_of "CL_EDULIT_IND" indicators) indicators
           indicator_concepts).
  - reflexivity.
  - reflexivity.
  - repeat constructor; indicator_tac.
  - repeat constructor; cbn; intuition discriminate.
  - repeat constructor; cbn; intuition discriminate.
  - intros x [<- | [<- | []]]; cbn; auto.
Defined.

(** The sample DSD and a data mapping with an indicator it does not
    have. *)
Lemma unknown_indicator_raises_witness :
  extract_concepts_continuous DdfUtils.to_concept_id
    [("edu2", 0); ("edu9", 1)] dsd = Raise KeyError
  /\ is_lookup_error KeyError = true.
Proof.
  apply (unknown_indicator_raises DdfUtils.to_concept_id
           [("edu2", 0); ("edu9", 1)] dsd
           (code_list_of "CL_EDULIT_IND" indicators) indicators
           indicator_concepts "edu9").
  - reflexivity.
  - reflexivity.
  - repeat constructor; indicator_tac.
  - cbn. auto.
  - cbn. intuition discriminate.
Defined.

(** Against C4 as it is written: a DSD with the single indicator code
    [EDU1] and a data mapping whose only indicator, [edu9], that code list
    does not have.  The loop runs over the keys of the code mapping, and
    the exception is a [TypeError], which is no lookup error. *)
Lemma unknown_indicator_type_error :
  (exists inds c,
     code_list Cases.dsd_one_indicator 0 = Ok inds
     /\ getitem inds "Code" = Ok c
     /\ getitem c "@value" = Ok (XStr "EDU1")
     /\ In "edu9" (dict_keys [("edu9", 0)])
     /\ DdfUtils.to_concept_id "EDU1" <> "edu9")
  /\ extract_concepts_continuous DdfUtils.to_concept_id [("edu9", 0)]
       Cases.dsd_one_indicator = Raise TypeError
  /\ ~ (exists e,
          extract_concepts_continuous DdfUtils.to_concept_id [("edu9", 0)]
            Cases.dsd_one_indicator = Raise e
          /\ is_lookup_error e = true).
Proof.
  assert (H : extract_concepts_continuous DdfUtils.to_concept_id
                [("edu9", 0)] Cases.dsd_one_indicator = Raise TypeError)
    by reflexivity.
  split; [|split; [exact H|]].
  - do 2 eexists. repeat split; try reflexivity.
    + left; reflexivity.
    + discriminate.
  - intros (e & He & Hl).
    rewrite H in He. injection He as <-. discriminate Hl.
Qed.

(** The two tables of the sample data file. *)
Lemma extract_datapoints_tables_witness :
  exists out h',
    consume (extract_datapoints data) tables = (Ok out, h')
    /\ Forall2 (fun kv kr =>
                  fst kr = fst kv
                  /\ exists df df',
                       nth_error tables (snd kv) = Some df
                       /\ nth_error h' (snd kr) = Some df'
                       /\ datapoints_table (fst kv) df df') data out.
Proof.
  apply (extract_datapoints_tables data tables).
  repeat constructor; eexists; split; reflexivity.
Defined.

Lemma extract_datapoints_sample :
  fst (consume (extract_datapoints data) tables)
  = Ok [("edu1", 8); ("edu2", 12)]
  /\ nth_error (snd (consume (extract_datapoints data) tables)) 8
     = Some (mkDataFrame None ["location"; "time"; "edu1"]
               [(2, [CText "fra"; CText "2001"; CText "3"]);
                (0, [CText "usa"; CText "2000"; CText "5.1"])]).
Proof. split; reflexivity. Qed.

Lemma extract_datapoints_keeps_input_witness :
  nth_error (snd (consume (extract_datapoints data) tables)) 2
  = Some edu1_table.
Proof.
  apply (extract_datapoints_keeps_input data tables "edu1" 2 edu1_table).
  - left. reflexivity.
  - reflexivity.
Defined.

(** * The further properties on sample documents *)

Import Cases.

Ltac reads_tac := eexists; repeat split; reflexivity.

Lemma concepts_single_code_type_error_witness :
  extract_concepts_continuous DdfUtils.to_concept_id data dsd_one_indicator
  = Raise TypeError.
Proof.
  eapply (concepts_single_code_type_error DdfUtils.to_concept_id data
            dsd_one_indicator); reflexivity.
Defined.

Lemma entities_single_code_type_error_witness :
  extract_entities_location DdfUtils.to_concept_id dsd_one_location
  = Raise TypeError.
Proof.
  eapply (entities_single_code_type_error DdfUtils.to_concept_id
            dsd_one_location); reflexivity.
Defined.

Lemma single_code_list_key_error_witness :
  extract_concepts_continuous DdfUtils.to_concept_id data dsd_one_list
  = Raise KeyError
  /\ extract_entities_location DdfUtils.to_concept_id dsd_one_list
     = Raise KeyError.
Proof.
  eapply (single_code_list_key_error DdfUtils.to_concept_id data dsd_one_list);
    reflexivity.
Defined.

Lemma series_attrs_key_values_witness :
  exists attrs,
    series_attrs DdfUtils.to_concept_id usa_edu1_female = Ok attrs
    /\ dict_get attrs "key" = Some "edu1"
    /\ dict_get attrs "location" = Some "usa".
Proof.
  eapply series_attrs_key_values
    with (cvs := [("EDULIT_IND", "EDU1"); ("LOCATION", "USA"); ("SEX", "F")]).
  - reflexivity.
  - reflexivity.
  - reflexivity.
  - repeat constructor.
Defined.

Lemma series_without_key_raises_witness :
  _read_data DdfUtils.to_concept_id ([usa_edu1] ++ no_indicator :: [usa_edu2]) []
  = (Raise KeyError, []).
Proof.
  erewrite series_without_key_raises
    with (item := no_indicator)
         (cvs := [("LOCATION", "USA"); ("SEX", "F")])
         (ser := [(XStr "2000", XStr "5.3")]).
  - reflexivity.
  - reflexivity.
  - reflexivity.
  - reflexivity.
  - repeat constructor.
  - reflexivity.
  - left. reflexivity.
Defined.

Lemma series_without_obs_raises_witness :
  _read_data DdfUtils.to_concept_id ([usa_edu1] ++ no_obs :: [usa_edu2]) []
  = (Raise KeyError, []).
Proof.
  erewrite series_without_obs_raises
    with (item := no_obs) (attrs := [("key", "edu1"); ("location", "usa")]).
  - reflexivity.
  - reflexivity.
  - reflexivity.
  - reflexivity.
Defined.

Lemma readings_read :
  Forall2 (reads DdfUtils.to_concept_id) data_file readings.
Proof. repeat constructor; reads_tac. Defined.

Lemma readings_pairs : NoDup (map r_pair readings).
Proof. repeat constructor; cbn; intuition discriminate. Defined.

Lemma read_series_groups_witness :
  foldM (read_series DdfUtils.to_concept_id) [] data_file
  = Ok [("edu1", [("usa", [(XStr "2000", XStr "5.1");
                           (XStr "1999", XStr "NaN")]);
                  ("fra", [(XStr "2001", XStr "3")])]);
        ("edu2", [("usa", [(XStr "2001", XStr "7.5")])])].
Proof.
  exact (read_series_groups DdfUtils.to_concept_id data_file readings
           readings_read readings_pairs).
Defined.

Lemma read_data_tables_witness :
  exists data h',
    _read_data DdfUtils.to_concept_id data_file [] = (Ok data, h')
    /\ dict_keys data = ["edu1"; "edu2"]
    /\ (exists t, h' = [] ++ t)
    /\ Forall (fun kr => nth_error h' (snd kr)
                         = Some (table_of (fst kr) readings)) data.
Proof.
  apply (read_data_tables DdfUtils.to_concept_id data_file readings []).
  - exact readings_read.
  - exact readings_pairs.
  - repeat constructor; discriminate.
Defined.

Lemma read_then_datapoints_witness :
  exists data h1 out h2,
    _read_data DdfUtils.to_concept_id data_file [] = (Ok data, h1)
    /\ consume (extract_datapoints data) h1 = (Ok out, h2)
    /\ map fst out = ["edu1"; "edu2"]
    /\ Forall (fun kr =>
                 exists df',
                   nth_error h2 (snd kr) = Some df'
                   /\ datapoints_table (fst kr) (table_of (fst kr) readings) df')
         out.
Proof.
  apply (read_then_datapoints DdfUtils.to_concept_id data_file readings []).
  - exact readings_read.
  - exact readings_pairs.
  - repeat constructor; discriminate.
  - repeat constructor.
Defined.

Lemma concepts_rows_of_data_keys_witness :
  exists out,
    extract_concepts_continuous DdfUtils.to_concept_id [("edu1", 0)]
      dsd_colliding
    = Ok (pd_DataFrame (map (concept_row DdfUtils.to_concept_id) out)
            ["concept"; "name"; "concept_type"])
    /\ Permutation out colliding_concepts
    /\ Sorted (fun a b => String.leb a b = true)
         (map (concept_id DdfUtils.to_concept_id) out).
Proof.
  apply (concepts_rows_of_data_keys DdfUtils.to_concept_id [("edu1", 0)]
           dsd_colliding (code_list_of "CL_EDULIT_IND" colliding) colliding
           colliding_concepts).
  - reflexivity.
  - reflexivity.
  - repeat constructor; indicator_tac.
  - repeat constructor. cbn. tauto.
  - intros x [<- | []]. left. reflexivity.
Defined.

Lemma written_paths_distinct_witness :
  NoDup ["../../ddf--concepts--continuous.csv";
         "../../ddf--concepts--discrete.csv";
         "../../ddf--entities--location.csv";
         "../../ddf--datapoints--edu1--by--location--time.csv";
         "../../ddf--datapoints--edu2--by--location--time.csv"].
Proof.
  apply (written_paths_distinct ["edu1"; "edu2"]).
  repeat constructor; cbn; intuition discriminate.
Defined.

Lemma entities_records_witness :
  extract_entities_location DdfUtils.to_concept_id dsd
  = Ok (pd_DataFrame [[CText "usa"; CText "United States"];
                      [CText "fra"; CText "France"]]
          ["location"; "name"]).
Proof.
  apply (entities_records DdfUtils.to_concept_id dsd
           (code_list_of "CL_LOCATION" locations) locations location_records).
  - reflexivity.
  - reflexivity.
  - repeat constructor; do 2 eexists; repeat split; reflexivity.
Defined.

Lemma datapoints_missing_column_witness :
  fst (consume (extract_datapoints ([("edu1", 2)] ++ ("edu3", 5) :: [("edu2", 4)]))
         tables_then_bad)
  = Raise KeyError.
Proof.
  apply (datapoints_missing_column [("edu1", 2)] [("edu2", 4)] "edu3" 5
           no_value_table tables_then_bad).
  - repeat constructor. eexists. split; reflexivity.
  - reflexivity.
  - left. reflexivity.
Defined.

Lemma main_writes_all_witness :
  exists written,
    main DdfUtils.to_concept_id (fun fs => fs) dsd data_file
    = (written, Ok tt)
    /\ map fst written
       = ["../../ddf--concepts--continuous.csv";
          "../../ddf--concepts--discrete.csv";
          "../../ddf--entities--location.csv";
          "../../ddf--datapoints--edu1--by--location--time.csv";
          "../../ddf--datapoints--edu2--by--location--time.csv"].
Proof.
  destruct (main_writes_all DdfUtils.to_concept_id (fun fs => fs) dsd
              (code_list_of "CL_EDULIT_IND" indicators)
              (code_list_of "CL_LOCATION" locations)
              indicators locations indicator_concepts location_records
              data_file readings)
    as (out & dps & Hmain & _ & _ & Hdps).
  - reflexivity.
  - reflexivity.
  - repeat constructor; indicator_tac.
  - reflexivity.
  - reflexivity.
  - repeat constructor; do 2 eexists; repeat split; reflexivity.
  - exact readings_read.
  - exact readings_pairs.
  - repeat constructor; discriminate.
  - repeat constructor.
  - intros x [<- | [<- | [<- | []]]]; cbn; auto.
  - eexists. split; [exact Hmain|].
    cbn [map fst app]. do 3 f_equal.
    inversion Hdps as [|k1 f1 ks1 dps1 [Hf1 _] Hdps1]; subst.
    inversion Hdps1 as [|k2 f2 ks2 dps2 [Hf2 _] Hdps2]; subst.
    inversion Hdps2; subst.
    cbn [map]. rewrite Hf1, Hf2. reflexivity.
Defined.

Lemma main_stops_at_locations_witness :
  exists written e,
    main DdfUtils.to_concept_id (fun fs => fs) dsd_en data_file
    = (written, Raise e)
    /\ map fst written
       = ["../../ddf--concepts--continuous.csv";
          "../../ddf--concepts--discrete.csv"]
    /\ is_lookup_error e = true.
Proof.
  destruct (main_stops_at_locations DdfUtils.to_concept_id (fun fs => fs)
              dsd_en
              (code_list_of "CL_EDULIT_IND" indicators)
              (code_list_of "CL_LOCATION" locations_en)
              indicators locations_en indicator_concepts
              data_file readings)
    as (out & e & Hmain & He).
  - reflexivity.
  - reflexivity.
  - repeat constructor; indicator_tac.
  - reflexivity.
  - reflexivity.
  - reflexivity.
  - reflexivity.
  - exact readings_read.
  - exact readings_pairs.
  - repeat constructor; discriminate.
  - intros x [<- | [<- | [<- | []]]]; cbn; auto.
  - eexists. exists e. split; [exact Hmain|]. split; [reflexivity | exact He].
Defined.
